(** * Document-AI backend: the job pipeline of [document-ai-backend]

    A shallow embedding of the NestJS services and controllers that make up
    the job pipeline:

    - [JobsService]    (jobs.service.ts):    [createJob], [getJobById],
                                             [updateJobStatus];
    - [JobsController] (jobs.controller.ts): the six HTTP handlers;
    - [UploadService]  (upload.service.ts):  [getPresignedUrl];
    - [CreateJobDto]   (create-job.dto.ts):  the class-validator constraints;
    - [SqsProducer], [generateDownloadUrl]   (infra/).

    The TypeORM repository of [Job] rows is a finite map keyed by the primary
    column [id]; the SQS queue is the list of message bodies sent so far.
    Every [async] function is modelled by the value its promise resolves to,
    threaded through an explicit [World]; the part "Promises that reject"
    adds the rejections of [repository.save] (a value wider than its
    column), of the queue and of the presigner, and what the callers do with
    them.  The two timestamp columns (filled in by the database) and the
    loss of the connection to a client are outside the model. *)

From Stdlib Require Import Ascii String.
From stdpp Require Import gmap strings pretty list fin_maps.

Local Open Scope string_scope.

(** ** JavaScript primitives used by the sources *)

Module JS.

(** [s.split(sep)] for a one-character separator: the pieces of [s] between
    the occurrences of [sep]; never the empty array. *)
Fixpoint split (sep : ascii) (s : string) : list string :=
  match s with
  | EmptyString => [EmptyString]
  | String c rest =>
      if Ascii.eqb c sep then EmptyString :: split sep rest
      else match split sep rest with
           | piece :: pieces => String c piece :: pieces
           | [] => [String c EmptyString]
           end
  end.

(** [arr.pop()] as an expression: the last element, [undefined] on []. *)
Definition pop (arr : list string) : option string := last arr.

(** Truthiness of a [string | undefined] value. *)
Definition truthy (v : option string) : bool :=
  match v with
  | Some EmptyString | None => false
  | Some _ => true
  end.

(** [v || d] where [d] is a string. *)
Definition or_else (v : option string) (d : string) : string :=
  match v with
  | Some s => if truthy v then s else d
  | None => d
  end.

(** Does [s] contain the character [c]? *)
Fixpoint contains (c : ascii) (s : string) : bool :=
  match s with
  | EmptyString => false
  | String a rest => Ascii.eqb a c || contains c rest
  end.

End JS.

(** ** Data model (jobs.entity.ts) *)

(** The union type ['EXPENSE' | 'HR']. *)
Inductive DocumentType := EXPENSE | HR.

Definition DocumentType_to_string (d : DocumentType) : string :=
  match d with EXPENSE => "EXPENSE" | HR => "HR" end.

(** The [Job] entity.  [status] is a free [string] column; the two nullable
    columns are [None] when NULL. *)
Record Job := mkJob {
  id : string;
  userId : string;
  inputFileKey : string;
  inputFileType : string;
  documentType : DocumentType;
  status : string;
  outputFileKey : option string;
  errorMessage : option string
}.

(** The payload of [SqsProducer.sendJobMessage]. *)
Record JobMessage := mkJobMessage {
  msg_jobId : string;
  msg_inputFileKey : string;
  msg_documentType : string
}.

(** What the handlers share: the [jobs] table, the queue, and how many
    times [uuid()] has been called. *)
Record World := mkWorld {
  jobRepository : gmap string Job;
  sqsQueue : list JobMessage;
  uuidCalls : nat
}.

Definition initial_world : World := mkWorld ∅ [] 0.

(** ** The S3 presigner (aws-sdk), kept symbolic

    [getSignedUrl(client, command, {expiresIn})] returns an opaque URL; the
    model keeps what the URL signs: the command and its lifetime in seconds. *)

Inductive S3Command :=
  | PutObjectCommand (Bucket : option string) (Key : string) (ContentType : string)
  | GetObjectCommand (Bucket : option string) (Key : option string).

Record SignedUrl := mkSignedUrl {
  signed_command : S3Command;
  expiresIn : nat
}.

Definition getSignedUrl (command : S3Command) (expires : nat) : SignedUrl :=
  mkSignedUrl command expires.

(** The HTTP method a presigned URL is bound to. *)
Definition signed_method (u : SignedUrl) : string :=
  match signed_command u with
  | PutObjectCommand _ _ _ => "PUT"
  | GetObjectCommand _ _ => "GET"
  end.

(** ** Repository operations (typeorm) *)

(** [repository.save(job)]: insert or overwrite the row with that primary
    key (when the store takes the row: see [Async.save]). *)
Definition repo_save (job : Job) (repo : gmap string Job) : gmap string Job :=
  <[id job := job]> repo.

(** The two [where] clauses the service uses: [{id}] and [{id, userId}]. *)
Record Where := mkWhere {
  where_id : string;
  where_userId : option string
}.

Definition matches_where (cond : Where) (job : Job) : bool :=
  match where_userId cond with
  | Some u => bool_decide (userId job = u)
  | None => true
  end.

(** [repository.findOne({where})]: the row or [null]. *)
Definition repo_findOne (cond : Where) (repo : gmap string Job) : option Job :=
  match repo !! where_id cond with
  | Some job => if matches_where cond job then Some job else None
  | None => None
  end.

(** The partial entity built by [{status, ...extra}]: a column is written
    only when its property is present. *)
Record JobPatch := mkJobPatch {
  patch_status : string;
  patch_outputFileKey : option string;
  patch_errorMessage : option string
}.

Definition apply_patch (p : JobPatch) (job : Job) : Job :=
  mkJob (id job) (userId job) (inputFileKey job) (inputFileType job)
        (documentType job)
        (patch_status p)
        (match patch_outputFileKey p with
         | Some k => Some k
         | None => outputFileKey job
         end)
        (match patch_errorMessage p with
         | Some m => Some m
         | None => errorMessage job
         end).

(** [repository.update(id, partial)]: rewrites the row with that key; no row,
    no effect. *)
Definition repo_update (jobId : string) (p : JobPatch) (repo : gmap string Job)
  : gmap string Job :=
  alter (apply_patch p) jobId repo.

(** ** SqsProducer (infra/sqs/sqs.producer.ts) *)

Definition sendJobMessage (payload : JobMessage) (w : World) : World :=
  mkWorld (jobRepository w) (sqsQueue w ++ [payload]) (uuidCalls w).

(** ** The uuid package *)

(** [uuid()]: [uuid_gen n] is the value the [n]-th call returns. *)
Definition uuid (uuid_gen : nat -> string) (w : World) : string * World :=
  (uuid_gen (uuidCalls w),
   mkWorld (jobRepository w) (sqsQueue w) (S (uuidCalls w))).

(** ** JobsService (jobs.service.ts) *)

Module JobsService.

Record CreateJobParams := mkCreateJobParams {
  param_userId : option string;
  param_inputFileKey : string;
  param_documentType : DocumentType
}.

(** The optional third argument of [updateJobStatus]. *)
Record Extra := mkExtra {
  extra_outputFileKey : option string;
  extra_errorMessage : option string
}.

(** [params.inputFileKey.split('.').pop() || 'unknown'] *)
Definition extension_of (key : string) : string :=
  JS.or_else (JS.pop (JS.split "." key)) "unknown".

Definition createJob (uuid_gen : nat -> string) (params : CreateJobParams)
    (w : World) : Job * World :=
  let extension := extension_of (param_inputFileKey params) in
  let '(fresh, w1) := uuid uuid_gen w in
  let job :=
    mkJob fresh
          (JS.or_else (param_userId params) "guest")
          (param_inputFileKey params)
          extension
          (param_documentType params)
          "PENDING"
          None None in
  let savedJob := job in
  let w2 :=
    mkWorld (repo_save job (jobRepository w1)) (sqsQueue w1) (uuidCalls w1) in
  let w3 :=
    sendJobMessage
      (mkJobMessage (id savedJob) (inputFileKey savedJob)
                    (DocumentType_to_string (documentType savedJob))) w2 in
  (savedJob, w3).

Definition getJobById (jobId : string) (uid : option string) (w : World)
  : option Job :=
  if JS.truthy uid
  then repo_findOne (mkWhere jobId uid) (jobRepository w)
  else repo_findOne (mkWhere jobId None) (jobRepository w).

(** [{status, ...extra}] *)
Definition spread_status (status : string) (extra : option Extra) : JobPatch :=
  match extra with
  | Some e => mkJobPatch status (extra_outputFileKey e) (extra_errorMessage e)
  | None => mkJobPatch status None None
  end.

Definition updateJobStatus (jobId status : string) (extra : option Extra)
    (w : World) : World :=
  mkWorld (repo_update jobId (spread_status status extra) (jobRepository w))
          (sqsQueue w) (uuidCalls w).

End JobsService.

(** ** UploadService (upload.service.ts) and infra/s3/s3.presign.ts *)

Module UploadService.

(** What [getPresignedUrl] resolves to: [{ url, key }]. *)
Record UploadGrant := mkUploadGrant {
  url : SignedUrl;
  key : string
}.

Definition getPresignedUrl (uuid_gen : nat -> string) (S3_BUCKET : option string)
    (fileName contentType : string) (w : World) : UploadGrant * World :=
  let '(token, w1) := uuid uuid_gen w in
  let key := "uploads/" +:+ token +:+ "-" +:+ fileName in
  let command := PutObjectCommand S3_BUCKET key contentType in
  let url := getSignedUrl command 300 in
  (mkUploadGrant url key, w1).

End UploadService.

(** [generateDownloadUrl(bucket, key)].  The controller passes
    [process.env.S3_BUCKET!] and [job.outputFileKey!]; a [!] is erased at run
    time, so either argument may be undefined.  This is the URL when the
    presigner resolves; [Async.generateDownloadUrl] has its rejection. *)
Definition generateDownloadUrl (bucket : option string) (key : option string)
  : SignedUrl :=
  getSignedUrl (GetObjectCommand bucket key) 300.

(** ** JobsController (jobs.controller.ts) *)

(** The values a handler puts in the object it returns. *)
Inductive JsVal :=
  | JNum (n : nat)
  | JStr (s : string)
  | JUrl (u : SignedUrl).

(** An object literal: its properties in order. *)
Definition Response : Type := list (string * JsVal).

(** [r[name]]: the property's value, [None] when [r] has no such property. *)
Fixpoint field (name : string) (r : Response) : option JsVal :=
  match r with
  | [] => None
  | (k, v) :: rest => if String.eqb k name then Some v else field name rest
  end.

Module HttpStatus.
Definition OK : nat := 200.
Definition ACCEPTED : nat := 202.
Definition BAD_REQUEST : nat := 400.
Definition NOT_FOUND : nat := 404.
End HttpStatus.

(** Modelled from the spec: the JWT strategy that fills [req.user] is not
    among the sources.  Section 4.5: with a valid authenticated principal the
    identity is that principal's stable id; [JwtAuthGuard] lets no other
    request reach a guarded handler. *)
Record AuthUser := mkAuthUser {
  auth_userId : string
}.

(** The request body once it has the type [CreateJobDto]. *)
Record CreateJobDto := mkCreateJobDto {
  dto_inputFileKey : string;
  dto_documentType : DocumentType
}.

Module JobsController.

Import JobsService.

Section Handlers.

Variable uuid_gen : nat -> string.
Variable S3_BUCKET : option string.

(** POST /jobs (authenticated) *)
Definition createJob (user : AuthUser) (body : CreateJobDto) (w : World)
  : Response * World :=
  let '(job, w') :=
    JobsService.createJob uuid_gen
      (mkCreateJobParams (Some (auth_userId user))
                         (dto_inputFileKey body) (dto_documentType body)) w in
  ([("jobId", JStr (id job)); ("status", JStr (status job))], w').

(** POST /jobs/guest *)
Definition createGuestJob (body : CreateJobDto) (w : World)
  : Response * World :=
  let '(job, w') :=
    JobsService.createJob uuid_gen
      (mkCreateJobParams None
                         (dto_inputFileKey body) (dto_documentType body)) w in
  ([("jobId", JStr (id job)); ("status", JStr (status job))], w').

(** GET /jobs/:id/status (authenticated) *)
Definition getJobStatus (user : AuthUser) (jobId : string) (w : World)
  : Response :=
  let userId := auth_userId user in
  match getJobById jobId (Some userId) w with
  | None =>
      [("statusCode", JNum 404); ("message", JStr "Job not found")]
  | Some job =>
      if String.eqb (status job) "FAILED" then
        [("jobId", JStr (id job)); ("status", JStr (status job));
         ("error", JStr (JS.or_else (errorMessage job) "Processing failed"))]
      else
        [("jobId", JStr (id job)); ("status", JStr (status job))]
  end.

(** GET /jobs/guest/:id/status *)
Definition getGuestJobStatus (jobId : string) (w : World) : Response :=
  match getJobById jobId None w with
  | None =>
      [("statusCode", JNum 404); ("message", JStr "Job not found")]
  | Some job =>
      if String.eqb (status job) "FAILED" then
        [("jobId", JStr (id job)); ("status", JStr (status job));
         ("error", JStr (JS.or_else (errorMessage job) "Processing failed"))]
      else
        [("jobId", JStr (id job)); ("status", JStr (status job))]
  end.

(** GET /jobs/:id/download (authenticated) *)
Definition downloadJobResult (user : AuthUser) (jobId : string) (w : World)
  : Response :=
  let userId := auth_userId user in
  match getJobById jobId (Some userId) w with
  | None =>
      [("statusCode", JNum HttpStatus.NOT_FOUND);
       ("message", JStr "Job not found")]
  | Some job =>
      if String.eqb (status job) "PROCESSING"
         || String.eqb (status job) "PENDING" then
        [("statusCode", JNum HttpStatus.ACCEPTED);
         ("status", JStr (status job));
         ("message", JStr "Document is still being processed")]
      else if String.eqb (status job) "FAILED" then
        [("statusCode", JNum HttpStatus.BAD_REQUEST);
         ("status", JStr "FAILED");
         ("error", JStr (JS.or_else (errorMessage job) "Processing failed"))]
      else
        let downloadUrl := generateDownloadUrl S3_BUCKET (outputFileKey job) in
        [("statusCode", JNum HttpStatus.OK);
         ("status", JStr "COMPLETED");
         ("downloadUrl", JUrl downloadUrl)]
  end.

(** GET /jobs/guest/:id/download *)
Definition downloadGuestJobResult (jobId : string) (w : World) : Response :=
  match getJobById jobId None w with
  | None =>
      [("statusCode", JNum HttpStatus.NOT_FOUND);
       ("message", JStr "Job not found")]
  | Some job =>
      if String.eqb (status job) "PROCESSING"
         || String.eqb (status job) "PENDING" then
        [("statusCode", JNum HttpStatus.ACCEPTED);
         ("status", JStr (status job));
         ("message", JStr "Document is still being processed")]
      else if String.eqb (status job) "FAILED" then
        [("statusCode", JNum HttpStatus.BAD_REQUEST);
         ("status", JStr "FAILED");
         ("error", JStr (JS.or_else (errorMessage job) "Processing failed"))]
      else
        let downloadUrl := generateDownloadUrl S3_BUCKET (outputFileKey job) in
        [("statusCode", JNum HttpStatus.OK);
         ("status", JStr "COMPLETED");
         ("downloadUrl", JUrl downloadUrl)]
  end.

End Handlers.

End JobsController.

(** ** CreateJobDto (dto/create-job.dto.ts) and its validation *)

(** A property of a JSON request body as it arrives. *)
Inductive Json :=
  | JsonUndefined
  | JsonNull
  | JsonBool (b : bool)
  | JsonNumber (n : Z)
  | JsonString (s : string).

Record RawBody := mkRawBody {
  raw_inputFileKey : Json;
  raw_documentType : Json
}.

Module ClassValidator.

(** [@IsString()]: [typeof value === 'string']. *)
Definition IsString (v : Json) : bool :=
  match v with JsonString _ => true | _ => false end.

(** [@IsNotEmpty()]: [value !== '' && value !== null && value !== undefined]. *)
Definition IsNotEmpty (v : Json) : bool :=
  match v with
  | JsonString EmptyString | JsonNull | JsonUndefined => false
  | _ => true
  end.

(** [@IsIn(values)]: [values.some(possible => possible === value)]. *)
Definition IsIn (values : list string) (v : Json) : bool :=
  match v with
  | JsonString s => bool_decide (s ∈ values)
  | _ => false
  end.

End ClassValidator.

(** The properties of a body that break a constraint of [CreateJobDto]. *)
Definition CreateJobDto_violations (raw : RawBody) : list string :=
  (if ClassValidator.IsString (raw_inputFileKey raw)
      && ClassValidator.IsNotEmpty (raw_inputFileKey raw)
   then [] else ["inputFileKey"])
  ++
  (if ClassValidator.IsIn ["EXPENSE"; "HR"] (raw_documentType raw)
   then [] else ["documentType"]).

Definition DocumentType_of_string (s : string) : option DocumentType :=
  if String.eqb s "EXPENSE" then Some EXPENSE
  else if String.eqb s "HR" then Some HR
  else None.

(** A body read at the type [CreateJobDto]. *)
Definition as_CreateJobDto (raw : RawBody) : option CreateJobDto :=
  match raw_inputFileKey raw, raw_documentType raw with
  | JsonString k, JsonString d =>
      mkCreateJobDto k <$> DocumentType_of_string d
  | _, _ => None
  end.

(** What a POST route answers: the validation error, or the handler's object. *)
Inductive HttpResult :=
  | ValidationError (violations : list string)
  | Handled (body : Response).

Module Routes.

Section Routes.

Variable uuid_gen : nat -> string.

(** Modelled from the spec: the bootstrap file that installs Nest's
    validation pipe is not among the sources.  Sections 4.2 and 7: a bad
    [documentCategory] or a malformed input reference is rejected
    synchronously with a validation error, no job is created and nothing is
    enqueued.  The constraints themselves are the decorators of
    [CreateJobDto]. *)
Definition ValidationPipe (raw : RawBody) : list string + CreateJobDto :=
  match CreateJobDto_violations raw, as_CreateJobDto raw with
  | [], Some dto => inr dto
  | violations, _ => inl violations
  end.

(** POST /jobs *)
Definition POST_jobs (user : AuthUser) (raw : RawBody) (w : World)
  : HttpResult * World :=
  match ValidationPipe raw with
  | inl violations => (ValidationError violations, w)
  | inr dto =>
      let '(body, w') := JobsController.createJob uuid_gen user dto w in
      (Handled body, w')
  end.

(** POST /jobs/guest *)
Definition POST_jobs_guest (raw : RawBody) (w : World) : HttpResult * World :=
  match ValidationPipe raw with
  | inl violations => (ValidationError violations, w)
  | inr dto =>
      let '(body, w') := JobsController.createGuestJob uuid_gen dto w in
      (Handled body, w')
  end.

(** A submission: by an authenticated requester to POST /jobs, by anyone
    else to POST /jobs/guest. *)
Definition submit (requester : option AuthUser) (raw : RawBody) (w : World)
  : HttpResult * World :=
  match requester with
  | Some user => POST_jobs user raw w
  | None => POST_jobs_guest raw w
  end.

End Routes.

End Routes.

(** ** Histories: the calls that change the world *)

Inductive Call :=
  | CallCreateJob (params : JobsService.CreateJobParams)
  | CallUpdateJobStatus (jobId status : string) (extra : option JobsService.Extra)
  | CallGetPresignedUrl (fileName contentType : string).

Definition perform (uuid_gen : nat -> string) (w : World) (c : Call) : World :=
  match c with
  | CallCreateJob params => snd (JobsService.createJob uuid_gen params w)
  | CallUpdateJobStatus jobId status extra =>
      JobsService.updateJobStatus jobId status extra w
  | CallGetPresignedUrl fileName contentType =>
      (* the world after the call does not depend on the bucket *)
      snd (UploadService.getPresignedUrl uuid_gen None fileName contentType w)
  end.

Definition run (uuid_gen : nat -> string) (calls : list Call) (w : World)
  : World :=
  foldl (perform uuid_gen) w calls.

(** ** The Access Resolver as section 4.5 of the specification words it,
       for comparison with [JobsService.getJobById] *)

Module Spec.

Definition anonymous : string := "guest".

(** [resolve(requestPrincipal?)] *)
Definition resolve (principal : option string) : string :=
  match principal with
  | Some p => p
  | None => anonymous
  end.

(** [checkOwnership(job, identity)] *)
Definition checkOwnership (job : Job) (identity : string) : bool :=
  bool_decide (userId job = identity) || bool_decide (userId job = anonymous).

End Spec.

(** ** Vocabulary of the statements *)

(** The object both kinds of read answer when [getJobById] finds nothing. *)
Definition not_found_body : Response :=
  [("statusCode", JNum 404); ("message", JStr "Job not found")].

(** The object a status read answers for a job that has not failed. *)
Definition status_body (job : Job) : Response :=
  [("jobId", JStr (id job)); ("status", JStr (status job))].

(** A nullable text column holds a non-empty string. *)
Definition non_empty (v : option string) : Prop := JS.truthy v = true.

(** Section 3: [outputRef] is set iff the job is COMPLETED, [failureDetail]
    iff it is FAILED. *)
Definition job_invariant (job : Job) : Prop :=
  (non_empty (outputFileKey job) ↔ status job = "COMPLETED") ∧
  (non_empty (errorMessage job) ↔ status job = "FAILED").

Definition world_invariant (w : World) : Prop :=
  map_Forall (λ _ job, job_invariant job) (jobRepository w).

Definition terminal (s : string) : bool :=
  String.eqb s "COMPLETED" || String.eqb s "FAILED".

(** The three updates of section 4.1's transition table, each with the one
    property it may carry. *)
Inductive worker_update : string → option JobsService.Extra → Prop :=
  | mark_processing :
      worker_update "PROCESSING" None
  | mark_completed (outputRef : string) :
      outputRef ≠ "" →
      worker_update "COMPLETED" (Some (JobsService.mkExtra (Some outputRef) None))
  | mark_failed (detail : string) :
      detail ≠ "" →
      worker_update "FAILED" (Some (JobsService.mkExtra None (Some detail))).

(** A call follows the life cycle when it is not a status update, or is one
    of the worker's updates addressed to a job that is still in flight. *)
Definition follows_lifecycle (w : World) (c : Call) : Prop :=
  match c with
  | CallUpdateJobStatus jobId requested extra =>
      worker_update requested extra ∧
      ∀ job, jobRepository w !! jobId = Some job → terminal (status job) = false
  | _ => True
  end.

Fixpoint lifecycle_history (uuid_gen : nat → string) (calls : list Call)
    (w : World) : Prop :=
  match calls with
  | [] => True
  | c :: rest =>
      follows_lifecycle w c ∧ lifecycle_history uuid_gen rest (perform uuid_gen w c)
  end.

(** One call of [updateJobStatus]: its three arguments. *)
Record StatusUpdate := mkStatusUpdate {
  upd_jobId : string;
  upd_status : string;
  upd_extra : option JobsService.Extra
}.

Definition apply_updates (updates : list StatusUpdate) (w : World) : World :=
  foldl (λ w u,
           JobsService.updateJobStatus (upd_jobId u) (upd_status u) (upd_extra u) w)
        w updates.

(** The status the last update addressed to [jobId] asked for, [current]
    when there is none. *)
Definition requested_status (jobId : string) (updates : list StatusUpdate)
    (current : string) : string :=
  foldl (λ s u, if bool_decide (upd_jobId u = jobId) then upd_status u else s)
        current updates.

(** Every stored id is one that [uuid()] has already returned. *)
Definition ids_generated (uuid_gen : nat → string) (w : World) : Prop :=
  ∀ jobId, is_Some (jobRepository w !! jobId) →
           ∃ n, n < uuidCalls w ∧ jobId = uuid_gen n.

(** [answer] is what a status route answers a requester who sees [job]. *)
Inductive status_read (w : World) (jobId : string) : Job → Response → Prop :=
  | status_authenticated user job :
      JobsService.getJobById jobId (Some (auth_userId user)) w = Some job →
      status_read w jobId job (JobsController.getJobStatus user jobId w)
  | status_guest job :
      JobsService.getJobById jobId None w = Some job →
      status_read w jobId job (JobsController.getGuestJobStatus jobId w).

(** A generator for the examples: the [n]-th id is the numeral of [n]. *)
Definition demo_uuid (n : nat) : string := pretty n.

(** ** Worlds of the examples: one submission into the empty world *)

Definition guest_submission : Job * World :=
  JobsService.createJob demo_uuid
    (JobsService.mkCreateJobParams None "uploads/abc-invoice.pdf" EXPENSE)
    initial_world.

Definition alice_submission : Job * World :=
  JobsService.createJob demo_uuid
    (JobsService.mkCreateJobParams (Some "alice") "uploads/abc-invoice.pdf" EXPENSE)
    initial_world.

(** ** UploadController (upload.controller.ts) *)

Module UploadController.

(** [@Body() body: { fileName: string; contentType: string }] *)
Record Body := mkBody {
  fileName : string;
  contentType : string
}.

Section Handlers.

Variable uuid_gen : nat -> string.
Variable S3_BUCKET : option string.

(** POST /upload/presigned-url (authenticated) *)
Definition getPresignedUrl (body : Body) (w : World)
  : UploadService.UploadGrant * World :=
  UploadService.getPresignedUrl uuid_gen S3_BUCKET
    (fileName body) (contentType body) w.

(** POST /upload/guest-presigned-url *)
Definition getGuestPresignedUrl (body : Body) (w : World)
  : UploadService.UploadGrant * World :=
  UploadService.getPresignedUrl uuid_gen S3_BUCKET
    (fileName body) (contentType body) w.

End Handlers.

End UploadController.

(** ** Further vocabulary *)

(** The columns [createJob] writes and no update is given: the id, the
    owner, the input key, the input kind and the document type. *)
Definition creation_columns (job : Job)
  : string * string * string * string * DocumentType :=
  (id job, userId job, inputFileKey job, inputFileType job, documentType job).

(** The message [createJob] sends for a job. *)
Definition message_of (job : Job) : JobMessage :=
  mkJobMessage (id job) (inputFileKey job)
               (DocumentType_to_string (documentType job)).

(** The names of an object's properties, in order. *)
Definition property_names (r : Response) : list string := fst <$> r.


(** Every message in the queue is the message of the job stored under its
    [jobId], and no two messages name the same job. *)
Definition messages_have_jobs (w : World) : Prop :=
  NoDup (msg_jobId <$> sqsQueue w) ∧
  ∀ m, m ∈ sqsQueue w →
       ∃ job, jobRepository w !! msg_jobId m = Some job ∧ message_of job = m.

(** Alice's submission of "uploads/a.pdf" as an HR document into the empty
    world. *)
Definition alice_submission_hr : Job * World :=
  JobsService.createJob demo_uuid
    (JobsService.mkCreateJobParams (Some "alice") "uploads/a.pdf" HR)
    initial_world.

(** ** AuthService (auth.service.ts) *)

(** The [User] entity (the timestamp columns apart). *)
Record User := mkUser {
  user_id : string;
  user_email : string;
  user_passwordHash : string
}.

(** The payload [generateToken] signs: [{ sub: userId, email }]. *)
Record JwtPayload := mkJwtPayload {
  sub : string;
  email : string
}.

(** What [AuthService] is constructed with and what it imports, over the
    state [Users] of the users table: [usersService.createUser] and
    [usersService.findByEmail], [jwtService.sign], and [bcrypt.hash] (the
    hash this call returns for the password and the number of rounds) and
    [bcrypt.compare]. *)
Class AuthDeps (Users : Type) := {
  createUser : User → Users → User * Users;
  findByEmail : string → Users → option User;
  jwt_sign : JwtPayload → string;
  bcrypt_hash : string → nat → string;
  bcrypt_compare : string → string → bool
}.

Module AuthService.

(** What a call resolves to, or the exception it throws. *)
Inductive Result :=
  | UnauthorizedException (message : string)
  | AccessToken (accessToken : string).

Section Service.

Context {Users : Type} `{AuthDeps Users}.

Definition generateToken (userId email : string) : Result :=
  AccessToken (jwt_sign (mkJwtPayload userId email)).

Definition register (uuid_gen : nat → string) (email password : string)
    (w : World) (users : Users) : Result * World * Users :=
  let passwordHash := bcrypt_hash password 10 in
  let '(fresh, w1) := uuid uuid_gen w in
  let '(user, users1) := createUser (mkUser fresh email passwordHash) users in
  (generateToken (user_id user) (user_email user), w1, users1).

Definition login (email password : string) (users : Users) : Result :=
  match findByEmail email users with
  | None => UnauthorizedException "Invalid credentials"
  | Some user =>
      if bcrypt_compare password (user_passwordHash user)
      then generateToken (user_id user) (user_email user)
      else UnauthorizedException "Invalid credentials"
  end.

End Service.

End AuthService.

(** Stand-ins for the examples: a users table keyed by email, a hash that
    prefixes the password, a token that spells out its payload. *)
Definition in_memory_deps : AuthDeps (gmap string User) := {|
  createUser := λ user users, (user, <[user_email user := user]> users);
  findByEmail := λ email users, users !! email;
  jwt_sign := λ payload, "jwt:" +:+ sub payload +:+ ":" +:+ email payload;
  bcrypt_hash := λ password rounds, "hash:" +:+ password;
  bcrypt_compare := λ password hash, bool_decide (hash = "hash:" +:+ password)
|}.

(** ** Promises that reject

    The services and handlers above give what a call builds, stores and
    answers when every promise it awaits resolves.  The definitions of this
    part add the rejections the sources meet: [repository.save] for a value
    wider than its column, [sqsClient.send] when the queue does not take the
    message, and the presigner for a command without a bucket or a key.  A
    rejection passes through every [await] up to the caller, who gets no
    answer object. *)

(** What awaiting a promise gives. *)
Inductive Settled (A : Type) : Type :=
  | Resolved (value : A)
  | Rejected.

Arguments Resolved {A} value.
Arguments Rejected {A}.

Module Async.

(** jobs.entity.ts: the columns declared with a length ([id] and [userId]
    36, [inputFileType], [documentType] and [status] 20); the database
    refuses a longer value. *)
Definition fits_columns (job : Job) : bool :=
  Nat.leb (String.length (id job)) 36
  && Nat.leb (String.length (userId job)) 36
  && Nat.leb (String.length (inputFileType job)) 20
  && Nat.leb (String.length (DocumentType_to_string (documentType job))) 20
  && Nat.leb (String.length (status job)) 20.

(** [await this.jobRepository.save(job)] *)
Definition save (job : Job) (w : World) : Settled World :=
  if fits_columns job
  then Resolved (mkWorld (repo_save job (jobRepository w)) (sqsQueue w) (uuidCalls w))
  else Rejected.

(** [await sqsClient.send(command)] of [SqsProducer.sendJobMessage];
    [accepted] says whether the queue takes the message. *)
Definition send (accepted : bool) (payload : JobMessage) (w : World)
  : Settled World :=
  if accepted then Resolved (sendJobMessage payload w) else Rejected.

(** The presigner needs a bucket and a key: it throws on a command in which
    either is undefined, null or empty. *)
Definition presigner_accepts (command : S3Command) : bool :=
  match command with
  | PutObjectCommand Bucket Key _ => JS.truthy Bucket && JS.truthy (Some Key)
  | GetObjectCommand Bucket Key => JS.truthy Bucket && JS.truthy Key
  end.

(** [await getSignedUrl(s3Client, command, { expiresIn })] *)
Definition signed (command : S3Command) (expires : nat) : Settled SignedUrl :=
  if presigner_accepts command
  then Resolved (getSignedUrl command expires)
  else Rejected.

(** [generateDownloadUrl(bucket, key)] *)
Definition generateDownloadUrl (bucket : option string) (key : option string)
  : Settled SignedUrl :=
  signed (GetObjectCommand bucket key) 300.

Section Handlers.

Variable uuid_gen : nat → string.
Variable S3_BUCKET : option string.

(** [JobsService.createJob]; the world is the one the call leaves, also
    when it rejects: a rejected save has used a [uuid()], a rejected send
    has also stored the job. *)
Definition createJob (sqs_accepts : bool) (params : JobsService.CreateJobParams)
    (w : World) : Settled Job * World :=
  let extension :=
    JobsService.extension_of (JobsService.param_inputFileKey params) in
  let '(fresh, w1) := uuid uuid_gen w in
  let job :=
    mkJob fresh
          (JS.or_else (JobsService.param_userId params) "guest")
          (JobsService.param_inputFileKey params)
          extension
          (JobsService.param_documentType params)
          "PENDING"
          None None in
  match save job w1 with
  | Rejected => (Rejected, w1)
  | Resolved w2 =>
      let savedJob := job in
      match send sqs_accepts
                 (mkJobMessage (id savedJob) (inputFileKey savedJob)
                    (DocumentType_to_string (documentType savedJob))) w2 with
      | Rejected => (Rejected, w2)
      | Resolved w3 => (Resolved savedJob, w3)
      end
  end.

(** POST /jobs (authenticated): [JobsController.createJob] *)
Definition postJob (sqs_accepts : bool) (user : AuthUser) (body : CreateJobDto)
    (w : World) : Settled Response * World :=
  match createJob sqs_accepts
          (JobsService.mkCreateJobParams (Some (auth_userId user))
             (dto_inputFileKey body) (dto_documentType body)) w with
  | (Rejected, w') => (Rejected, w')
  | (Resolved job, w') =>
      (Resolved [("jobId", JStr (id job)); ("status", JStr (status job))], w')
  end.

(** POST /jobs/guest: [JobsController.createGuestJob] *)
Definition postGuestJob (sqs_accepts : bool) (body : CreateJobDto) (w : World)
  : Settled Response * World :=
  match createJob sqs_accepts
          (JobsService.mkCreateJobParams None
             (dto_inputFileKey body) (dto_documentType body)) w with
  | (Rejected, w') => (Rejected, w')
  | (Resolved job, w') =>
      (Resolved [("jobId", JStr (id job)); ("status", JStr (status job))], w')
  end.

(** A submission through the pipe, as [Routes.submit]. *)
Definition submit (sqs_accepts : bool) (requester : option AuthUser)
    (raw : RawBody) (w : World) : Settled HttpResult * World :=
  match Routes.ValidationPipe raw with
  | inl violations => (Resolved (ValidationError violations), w)
  | inr dto =>
      match
        match requester with
        | Some user => postJob sqs_accepts user dto w
        | None => postGuestJob sqs_accepts dto w
        end
      with
      | (Rejected, w') => (Rejected, w')
      | (Resolved body, w') => (Resolved (Handled body), w')
      end
  end.

(** GET /jobs/:id/download (authenticated) *)
Definition downloadJobResult (user : AuthUser) (jobId : string) (w : World)
  : Settled Response :=
  let userId := auth_userId user in
  match JobsService.getJobById jobId (Some userId) w with
  | None =>
      Resolved [("statusCode", JNum HttpStatus.NOT_FOUND);
                ("message", JStr "Job not found")]
  | Some job =>
      if String.eqb (status job) "PROCESSING"
         || String.eqb (status job) "PENDING" then
        Resolved [("statusCode", JNum HttpStatus.ACCEPTED);
                  ("status", JStr (status job));
                  ("message", JStr "Document is still being processed")]
      else if String.eqb (status job) "FAILED" then
        Resolved [("statusCode", JNum HttpStatus.BAD_REQUEST);
                  ("status", JStr "FAILED");
                  ("error",
                   JStr (JS.or_else (errorMessage job) "Processing failed"))]
      else
        match generateDownloadUrl S3_BUCKET (outputFileKey job) with
        | Rejected => Rejected
        | Resolved downloadUrl =>
            Resolved [("statusCode", JNum HttpStatus.OK);
                      ("status", JStr "COMPLETED");
                      ("downloadUrl", JUrl downloadUrl)]
        end
  end.

(** GET /jobs/guest/:id/download *)
Definition downloadGuestJobResult (jobId : string) (w : World)
  : Settled Response :=
  match JobsService.getJobById jobId None w with
  | None =>
      Resolved [("statusCode", JNum HttpStatus.NOT_FOUND);
                ("message", JStr "Job not found")]
  | Some job =>
      if String.eqb (status job) "PROCESSING"
         || String.eqb (status job) "PENDING" then
        Resolved [("statusCode", JNum HttpStatus.ACCEPTED);
                  ("status", JStr (status job));
                  ("message", JStr "Document is still being processed")]
      else if String.eqb (status job) "FAILED" then
        Resolved [("statusCode", JNum HttpStatus.BAD_REQUEST);
                  ("status", JStr "FAILED");
                  ("error",
                   JStr (JS.or_else (errorMessage job) "Processing failed"))]
      else
        match generateDownloadUrl S3_BUCKET (outputFileKey job) with
        | Rejected => Rejected
        | Resolved downloadUrl =>
            Resolved [("statusCode", JNum HttpStatus.OK);
                      ("status", JStr "COMPLETED");
                      ("downloadUrl", JUrl downloadUrl)]
        end
  end.

End Handlers.

End Async.

(** [outcome] is how a download route settles for a requester who sees
    [job]. *)
Inductive download_settles (S3_BUCKET : option string) (w : World)
    (jobId : string) : Job → Settled Response → Prop :=
  | settles_authenticated user job :
      JobsService.getJobById jobId (Some (auth_userId user)) w = Some job →
      download_settles S3_BUCKET w jobId job
        (Async.downloadJobResult S3_BUCKET user jobId w)
  | settles_guest job :
      JobsService.getJobById jobId None w = Some job →
      download_settles S3_BUCKET w jobId job
        (Async.downloadGuestJobResult S3_BUCKET jobId w).

(** The columns of a row other than the two timestamps. *)
Definition stored_columns (job : Job)
  : string * string * string * string * DocumentType
    * string * option string * option string :=
  (creation_columns job, status job, outputFileKey job, errorMessage job).

(** * Facts *)

(** ** JavaScript primitives *)

Lemma truthy_Some (s : string) : JS.truthy (Some s) = true ↔ s ≠ "".
Proof. destruct s; simpl; split; intros; congruence. Qed.

Lemma or_else_truthy (v : option string) (d s : string) :
  v = Some s → s ≠ "" → JS.or_else v d = s.
Proof. intros -> Hs. destruct s; [congruence | reflexivity]. Qed.

Lemma or_else_falsy (v : option string) (d : string) :
  JS.truthy v = false → JS.or_else v d = d.
Proof. destruct v as [[|c s]|]; simpl; intros; congruence. Qed.

Lemma or_else_non_empty (v : option string) (d : string) :
  d ≠ "" → JS.or_else v d ≠ "".
Proof. destruct v as [[|c s]|]; simpl; intros; congruence. Qed.

Lemma split_not_nil (sep : ascii) (s : string) : JS.split sep s ≠ [].
Proof.
  destruct s as [|c s]; simpl; [discriminate|].
  destruct (Ascii.eqb c sep); [discriminate|].
  destruct (JS.split sep s); discriminate.
Qed.

(** Without a separator there is one piece: the whole string. *)
Lemma split_without (sep : ascii) (s : string) :
  JS.contains sep s = false → JS.split sep s = [s].
Proof.
  induction s as [|c s IH]; simpl; [reflexivity|].
  intros [Hc Hs]%orb_false_iff. rewrite Hc, (IH Hs). reflexivity.
Qed.

(** Splitting distributes over a separator. *)
Lemma split_at_separator (sep : ascii) (p e : string) :
  JS.split sep (p +:+ String sep e) = (JS.split sep p ++ JS.split sep e)%list.
Proof.
  induction p as [|c p IH]; simpl.
  - rewrite Ascii.eqb_refl. reflexivity.
  - destruct (Ascii.eqb c sep); rewrite IH; [reflexivity|].
    pose proof (split_not_nil sep p) as Hp.
    destruct (JS.split sep p); [congruence | reflexivity].
Qed.

(** [split(sep).pop()] is the text after the last separator. *)
Lemma pop_split_suffix (sep : ascii) (p e : string) :
  JS.contains sep e = false →
  JS.pop (JS.split sep (p +:+ String sep e)) = Some e.
Proof.
  intros He. unfold JS.pop.
  rewrite split_at_separator, (split_without _ _ He), last_snoc. reflexivity.
Qed.

(** ** The services, unfolded *)

(** [createJob], with its [let]s carried out. *)
Lemma createJob_unfold (uuid_gen : nat → string)
    (params : JobsService.CreateJobParams) (w : World) :
  JobsService.createJob uuid_gen params w =
  let job :=
    mkJob (uuid_gen (uuidCalls w))
          (JS.or_else (JobsService.param_userId params) "guest")
          (JobsService.param_inputFileKey params)
          (JobsService.extension_of (JobsService.param_inputFileKey params))
          (JobsService.param_documentType params)
          "PENDING" None None in
  (job,
   mkWorld (<[id job := job]> (jobRepository w))
           (sqsQueue w ++ [mkJobMessage (id job) (inputFileKey job)
                             (DocumentType_to_string (documentType job))])
           (S (uuidCalls w))).
Proof. reflexivity. Qed.

(** Unfold a read handler and feed it what [getJobById] returned. *)
Ltac run_handler Hsees :=
  unfold JobsController.downloadJobResult, JobsController.downloadGuestJobResult,
    JobsController.getJobStatus, JobsController.getGuestJobStatus,
    HttpStatus.NOT_FOUND, HttpStatus.ACCEPTED, HttpStatus.BAD_REQUEST,
    HttpStatus.OK;
  cbn zeta; rewrite Hsees.

(** The generator of the examples never repeats itself. *)
Lemma demo_uuid_inj : Inj (=) (=) demo_uuid.
Proof. unfold demo_uuid. apply pretty_nat_inj. Qed.

(** ** C5: the derived input kind *)

(** With a delimiter in the key, the derived kind is the text after the last
    one, and the sentinel when that text is empty. *)
Lemma extension_of_suffix (p e : string) :
  JS.contains "." e = false →
  JobsService.extension_of (p +:+ String "." e)
  = if bool_decide (e = "") then "unknown" else e.
Proof.
  intros He. unfold JobsService.extension_of.
  rewrite (pop_split_suffix _ _ _ He).
  destruct e; reflexivity.
Qed.

(** Without a delimiter, the derived kind of a non-empty key is the key. *)
Lemma extension_of_no_delimiter (key : string) :
  JS.contains "." key = false → key ≠ "" →
  JobsService.extension_of key = key.
Proof.
  intros Hk Hne. unfold JobsService.extension_of, JS.pop.
  rewrite (split_without _ _ Hk). simpl.
  destruct key; [congruence | reflexivity].
Qed.

Example extension_of_invoice_pdf :
  JobsService.extension_of "uploads/abc-invoice.pdf" = "pdf".
Proof. reflexivity. Qed.

(** C5 (input kind of a key with no extension delimiter).  The key
    "uploads/abc-invoice" contains no '.', and the job created for it, by
    whatever requester and in whatever world, has the whole key as its
    [inputFileType], not the sentinel "unknown". *)
Theorem createJob_kind_without_delimiter
    (uuid_gen : nat → string) (uid : option string) (d : DocumentType)
    (w : World) :
  JS.contains "." "uploads/abc-invoice" = false ∧
  inputFileType
    (fst (JobsService.createJob uuid_gen
            (JobsService.mkCreateJobParams uid "uploads/abc-invoice" d) w))
  = "uploads/abc-invoice" ∧
  "uploads/abc-invoice" ≠ "unknown".
Proof. split; [reflexivity | split; [reflexivity | discriminate]]. Qed.

(** ** C1: which jobs a read sees *)

Lemma getJobById_Some (jobId : string) (uid : option string) (w : World)
    (job : Job) :
  JobsService.getJobById jobId uid w = Some job ↔
  jobRepository w !! jobId = Some job ∧
  (JS.truthy uid = false ∨ uid = Some (userId job)).
Proof.
  unfold JobsService.getJobById, repo_findOne, matches_where; simpl.
  destruct (JS.truthy uid) eqn:Huid; simpl.
  - destruct uid as [u|]; [|discriminate].
    destruct (jobRepository w !! jobId) as [stored|]; simpl.
    + case_bool_decide as Hu; split.
      * intros [= ->]. split; [reflexivity|]. right. congruence.
      * intros [[= ->] _]. reflexivity.
      * discriminate.
      * intros [[= ->] [?|[= ->]]]; [discriminate | congruence].
    + split; [discriminate | intros [? _]; discriminate].
  - destruct (jobRepository w !! jobId) as [stored|]; split.
    + intros [= ->]. split; [reflexivity | left; reflexivity].
    + intros [[= ->] _]. reflexivity.
    + discriminate.
    + intros [? _]. discriminate.
Qed.

(** C1 (visibility, as the code decides it).  [getJobById] returns the job
    exactly when a row with that id is stored and the requester's user id is
    either absent or empty (no filter is applied) or equal to the row's
    [userId].  Every read route answers the not-found object exactly when
    [getJobById] returns nothing, whether the id is unknown or the filter
    rejected the row: there is no separate "forbidden" answer. *)
Theorem getJobById_visibility (jobId : string) (uid : option string) (w : World) :
  (∀ job,
     JobsService.getJobById jobId uid w = Some job ↔
     jobRepository w !! jobId = Some job ∧
     (JS.truthy uid = false ∨ uid = Some (userId job))) ∧
  (∀ user,
     JobsController.getJobStatus user jobId w = not_found_body ↔
     JobsService.getJobById jobId (Some (auth_userId user)) w = None) ∧
  (JobsController.getGuestJobStatus jobId w = not_found_body ↔
   JobsService.getJobById jobId None w = None) ∧
  (∀ S3_BUCKET user,
     JobsController.downloadJobResult S3_BUCKET user jobId w = not_found_body ↔
     JobsService.getJobById jobId (Some (auth_userId user)) w = None) ∧
  (∀ S3_BUCKET,
     JobsController.downloadGuestJobResult S3_BUCKET jobId w = not_found_body ↔
     JobsService.getJobById jobId None w = None).
Proof.
  split; [intros job; apply getJobById_Some|].
  unfold JobsController.getJobStatus, JobsController.getGuestJobStatus,
    JobsController.downloadJobResult, JobsController.downloadGuestJobResult,
    not_found_body, HttpStatus.NOT_FOUND, HttpStatus.ACCEPTED,
    HttpStatus.BAD_REQUEST, HttpStatus.OK.
  repeat split; intros;
    repeat match goal with
    | H : context [match ?x with Some _ => _ | None => _ end] |- _ =>
        destruct x eqn:?
    | |- context [match ?x with Some _ => _ | None => _ end] =>
        destruct x eqn:?
    | H : context [if ?b then _ else _] |- _ => destruct b
    | |- context [if ?b then _ else _] => destruct b
    end;
    congruence.
Qed.

(** C1, counterexample.  A request without a user id is given alice's job,
    which the specification's ownership check denies the anonymous identity;
    and the request of the principal "bob" is denied a guest job, which the
    specification's ownership check grants everyone. *)
Lemma getJobById_is_not_checkOwnership :
  (JobsService.getJobById "0" None (snd alice_submission)
     = Some (fst alice_submission) ∧
   Spec.checkOwnership (fst alice_submission) (Spec.resolve None) = false) ∧
  (jobRepository (snd guest_submission) !! "0" = Some (fst guest_submission) ∧
   Spec.checkOwnership (fst guest_submission) (Spec.resolve (Some "bob")) = true ∧
   JobsService.getJobById "0" (Some "bob") (snd guest_submission) = None).
Proof. repeat split; vm_compute; reflexivity. Qed.

(** ** C2: guest submissions *)

(** C2 (guest submissions, as the code reads them back).  A job submitted
    without a user id is stored with [userId = "guest"] and status PENDING.
    The guest status route, which takes no identity, then answers with the
    job; the authenticated status route answers with it only for a principal
    whose id is "guest" or empty, and answers not-found for every other
    principal. *)
Theorem guest_job_status_reads (uuid_gen : nat → string) (key : string)
    (d : DocumentType) (w : World) :
  let submission :=
    JobsService.createJob uuid_gen (JobsService.mkCreateJobParams None key d) w in
  let job := fst submission in
  let w' := snd submission in
  userId job = "guest" ∧
  status job = "PENDING" ∧
  jobRepository w' !! id job = Some job ∧
  JobsController.getGuestJobStatus (id job) w' = status_body job ∧
  ∀ user,
    JobsController.getJobStatus user (id job) w' =
    if bool_decide (auth_userId user = "guest" ∨ auth_userId user = "")
    then status_body job else not_found_body.
Proof.
  rewrite createJob_unfold. cbn zeta. cbn [fst snd id userId status jobRepository].
  set (job := mkJob _ _ _ _ _ _ _ _).
  assert (Hrow : <[uuid_gen (uuidCalls w) := job]> (jobRepository w)
                   !! uuid_gen (uuidCalls w) = Some job)
    by apply lookup_insert_eq.
  split; [reflexivity|]. split; [reflexivity|]. split; [exact Hrow|].
  split.
  - unfold JobsController.getGuestJobStatus, JobsService.getJobById,
      repo_findOne. simpl. rewrite Hrow. reflexivity.
  - intros [u]. unfold JobsController.getJobStatus, JobsService.getJobById,
      repo_findOne, matches_where. simpl.
    destruct u as [|c u]; simpl; rewrite Hrow; simpl.
    + reflexivity.
    + case_bool_decide as Hg; case_bool_decide as Hu; try reflexivity.
      * exfalso. apply Hu. left. congruence.
      * exfalso. destruct Hu as [Hu|Hu]; [|discriminate]. apply Hg. congruence.
Qed.

(** C2, counterexample.  The job of a guest submission is owned by "guest",
    and the status read of the authenticated principal "alice" for its id
    is answered not-found. *)
Lemma guest_job_hidden_from_alice :
  userId (fst guest_submission) = "guest" ∧
  id (fst guest_submission) = "0" ∧
  JobsController.getJobStatus (mkAuthUser "alice") "0" (snd guest_submission)
  = not_found_body.
Proof. repeat split; vm_compute; reflexivity. Qed.

(** ** C3: output and failure columns against the status *)

Lemma terminal_false (s : string) :
  terminal s = false ↔ s ≠ "COMPLETED" ∧ s ≠ "FAILED".
Proof.
  unfold terminal. rewrite orb_false_iff, !String.eqb_neq. reflexivity.
Qed.

Lemma fresh_job_invariant (jobId owner key kind : string) (d : DocumentType) :
  job_invariant (mkJob jobId owner key kind d "PENDING" None None).
Proof. split; simpl; split; intros; discriminate. Qed.

Lemma worker_update_invariant (job : Job) (requested : string)
    (extra : option JobsService.Extra) :
  job_invariant job →
  terminal (status job) = false →
  worker_update requested extra →
  job_invariant (apply_patch (JobsService.spread_status requested extra) job).
Proof.
  intros [Hout Herr] [Hc Hf]%terminal_false Hupd.
  assert (Hno_out : ¬ non_empty (outputFileKey job)) by (rewrite Hout; exact Hc).
  assert (Hno_err : ¬ non_empty (errorMessage job)) by (rewrite Herr; exact Hf).
  destruct Hupd as [|outputRef Hne|detail Hne]; split; simpl; split;
    try discriminate; try tauto; try reflexivity; intros _;
    apply truthy_Some; exact Hne.
Qed.

Lemma perform_invariant (uuid_gen : nat → string) (w : World) (c : Call) :
  world_invariant w → follows_lifecycle w c →
  world_invariant (perform uuid_gen w c).
Proof.
  unfold world_invariant. intros Hw Hc.
  destruct c as [params|jobId requested extra|fileName contentType].
  - cbn [perform]. rewrite createJob_unfold. cbn zeta.
    cbn [snd jobRepository id].
    apply map_Forall_insert_2; [apply fresh_job_invariant | exact Hw].
  - destruct Hc as [Hupd Hflight]. simpl. unfold repo_update.
    apply map_Forall_lookup. intros j job'.
    rewrite lookup_alter_Some.
    intros [(-> & job & Hjob & ->)|[_ Hjob]].
    + apply worker_update_invariant; [|eauto|exact Hupd].
      exact (map_Forall_lookup_1 _ _ _ _ Hw Hjob).
    + exact (map_Forall_lookup_1 _ _ _ _ Hw Hjob).
  - exact Hw.
Qed.

(** C3 (the two columns against the status, as the code keeps them).  Start
    from a world where every job has [outputFileKey] non-empty iff COMPLETED
    and [errorMessage] non-empty iff FAILED (the empty store is one), and take
    a history of job creations, upload grants and status updates in which
    each status update is one of the worker's three (PROCESSING with no extra
    property, COMPLETED with a non-empty [outputFileKey] only, FAILED with a
    non-empty [errorMessage] only) and is addressed to a job that is not yet
    COMPLETED or FAILED.  Then every job has the property at every point of
    the history. *)
Theorem lifecycle_keeps_invariant (uuid_gen : nat → string) (calls : list Call)
    (w : World) :
  world_invariant w →
  lifecycle_history uuid_gen calls w →
  ∀ n, world_invariant (run uuid_gen (take n calls) w).
Proof.
  revert w. induction calls as [|c calls IH]; intros w Hw Hcalls n.
  - rewrite take_nil. exact Hw.
  - destruct Hcalls as [Hc Hrest]. destruct n as [|n]; [exact Hw|].
    cbn [take]. unfold run. cbn [foldl].
    apply IH; [apply perform_invariant; assumption | exact Hrest].
Qed.

(** The life cycle of section 8's first scenario: submitted, claimed,
    completed. *)
Lemma lifecycle_keeps_invariant_witness :
  let calls :=
    [CallCreateJob
       (JobsService.mkCreateJobParams None "uploads/abc-invoice.pdf" EXPENSE);
     CallUpdateJobStatus "0" "PROCESSING" None;
     CallUpdateJobStatus "0" "COMPLETED"
       (Some (JobsService.mkExtra (Some "outputs/0-result.xlsx") None))] in
  world_invariant initial_world ∧
  lifecycle_history demo_uuid calls initial_world ∧
  ∀ n, world_invariant (run demo_uuid (take n calls) initial_world).
Proof.
  cbn zeta.
  assert (Hinit : world_invariant initial_world) by apply map_Forall_empty.
  assert (Hcalls :
    lifecycle_history demo_uuid
      [CallCreateJob
         (JobsService.mkCreateJobParams None "uploads/abc-invoice.pdf" EXPENSE);
       CallUpdateJobStatus "0" "PROCESSING" None;
       CallUpdateJobStatus "0" "COMPLETED"
         (Some (JobsService.mkExtra (Some "outputs/0-result.xlsx") None))]
      initial_world).
  { cbn [lifecycle_history follows_lifecycle].
    repeat split; try constructor; try discriminate;
      intros job Hjob; vm_compute in Hjob; injection Hjob as <-; reflexivity. }
  split; [exact Hinit|]. split; [exact Hcalls|].
  exact (lifecycle_keeps_invariant demo_uuid _ initial_world Hinit Hcalls).
Defined.

(** C3, counterexample.  After [updateJobStatus("0", "COMPLETED")] with no
    extra object the guest job is COMPLETED with no [outputFileKey]; and after
    a FAILED update carrying a message followed by a COMPLETED update carrying
    an output key, both columns of the job are set. *)
Lemma updateJobStatus_breaks_invariant :
  (∃ job,
     jobRepository
       (JobsService.updateJobStatus "0" "COMPLETED" None (snd guest_submission))
       !! "0" = Some job ∧
     status job = "COMPLETED" ∧ outputFileKey job = None ∧
     ¬ job_invariant job) ∧
  (∃ job,
     jobRepository
       (JobsService.updateJobStatus "0" "COMPLETED"
          (Some (JobsService.mkExtra (Some "outputs/0-result.xlsx") None))
          (JobsService.updateJobStatus "0" "FAILED"
             (Some (JobsService.mkExtra None (Some "boom")))
             (snd guest_submission)))
       !! "0" = Some job ∧
     outputFileKey job = Some "outputs/0-result.xlsx" ∧
     errorMessage job = Some "boom" ∧
     ¬ job_invariant job).
Proof.
  split.
  - exists (mkJob "0" "guest" "uploads/abc-invoice.pdf" "pdf" EXPENSE
                  "COMPLETED" None None).
    split; [vm_compute; reflexivity|]. split; [reflexivity|].
    split; [reflexivity|].
    intros [Hout _]. simpl in Hout.
    assert (Habs : non_empty None) by (apply Hout; reflexivity).
    discriminate Habs.
  - exists (mkJob "0" "guest" "uploads/abc-invoice.pdf" "pdf" EXPENSE
                  "COMPLETED" (Some "outputs/0-result.xlsx") (Some "boom")).
    split; [vm_compute; reflexivity|]. split; [reflexivity|].
    split; [reflexivity|].
    intros [_ Herr]. simpl in Herr.
    assert (Habs : "COMPLETED" = "FAILED") by (apply Herr; reflexivity).
    discriminate Habs.
Qed.

(** ** C4: status updates and terminal states *)

Lemma updateJobStatus_lookup (jobId requested : string)
    (extra : option JobsService.Extra) (w : World) (j : string) :
  status <$> jobRepository (JobsService.updateJobStatus jobId requested extra w) !! j
  = (λ s, if bool_decide (jobId = j) then requested else s)
      <$> (status <$> jobRepository w !! j).
Proof.
  unfold JobsService.updateJobStatus, repo_update. cbn [jobRepository].
  rewrite lookup_alter. case_decide as Hj.
  - rewrite bool_decide_eq_true_2 by exact Hj. subst j.
    destruct (jobRepository w !! jobId) as [job|]; [|reflexivity].
    destruct extra; reflexivity.
  - rewrite bool_decide_eq_false_2 by exact Hj.
    destruct (jobRepository w !! j); reflexivity.
Qed.

(** C4 (status updates, as the code applies them).  [updateJobStatus] never
    looks at the current status.  After any sequence of status updates, the
    status of a stored job is the one requested by the last update addressed
    to its id, and its earlier status when no update was addressed to it: a
    COMPLETED or FAILED status is overwritten like any other. *)
Theorem status_after_updates (updates : list StatusUpdate) (w : World)
    (jobId : string) :
  status <$> jobRepository (apply_updates updates w) !! jobId
  = requested_status jobId updates <$> (status <$> jobRepository w !! jobId).
Proof.
  revert w. induction updates as [|u updates IH]; intros w.
  - simpl. destruct (jobRepository w !! jobId); reflexivity.
  - unfold apply_updates, requested_status in *. cbn [foldl].
    rewrite IH, updateJobStatus_lookup.
    destruct (jobRepository w !! jobId); reflexivity.
Qed.

(** C4, counterexample.  The guest job is COMPLETED after the first update
    and PROCESSING after the second. *)
Lemma updateJobStatus_leaves_terminal_state :
  let completed :=
    JobsService.updateJobStatus "0" "COMPLETED"
      (Some (JobsService.mkExtra (Some "outputs/0-result.xlsx") None))
      (snd guest_submission) in
  status <$> jobRepository completed !! "0" = Some "COMPLETED" ∧
  terminal "COMPLETED" = true ∧
  status <$> jobRepository
               (JobsService.updateJobStatus "0" "PROCESSING" None completed) !! "0"
  = Some "PROCESSING".
Proof. repeat split; vm_compute; reflexivity. Qed.

(** ** C6: what a valid submission creates *)

(** A body without violations is a non-empty key and one of the two
    document types, and passes the pipe as that [CreateJobDto]. *)
Lemma ValidationPipe_valid (raw : RawBody) :
  CreateJobDto_violations raw = [] →
  ∃ key d,
    raw = mkRawBody (JsonString key) (JsonString (DocumentType_to_string d)) ∧
    key ≠ "" ∧
    Routes.ValidationPipe raw = inr (mkCreateJobDto key d).
Proof.
  destruct raw as [k dt]. unfold Routes.ValidationPipe, CreateJobDto_violations.
  cbn [raw_inputFileKey raw_documentType].
  intros [Hk Hd]%app_eq_nil.
  destruct (ClassValidator.IsString k && ClassValidator.IsNotEmpty k) eqn:Hkey;
    [|discriminate].
  destruct (ClassValidator.IsIn ["EXPENSE"; "HR"] dt) eqn:Hin; [|discriminate].
  apply andb_true_iff in Hkey as [Hstr Hne].
  destruct k as [| | |?|key]; try discriminate.
  destruct dt as [| | |?|doc]; try discriminate.
  apply bool_decide_eq_true in Hin.
  assert (Hdoc : doc = "EXPENSE" ∨ doc = "HR").
  { rewrite !elem_of_cons in Hin. destruct Hin as [?|[?|Hnil]]; auto.
    inversion Hnil. }
  exists key, (if bool_decide (doc = "EXPENSE") then EXPENSE else HR).
  split; [|split].
  - destruct Hdoc as [-> | ->]; reflexivity.
  - destruct key; [discriminate | discriminate].
  - destruct Hdoc as [-> | ->]; reflexivity.
Qed.

Lemma ids_generated_initial (uuid_gen : nat → string) :
  ids_generated uuid_gen initial_world.
Proof.
  intros jobId [job Hjob]. unfold initial_world in Hjob.
  cbn [jobRepository] in Hjob. rewrite lookup_empty in Hjob. discriminate.
Qed.

Lemma ids_generated_perform (uuid_gen : nat → string) (w : World) (c : Call) :
  ids_generated uuid_gen w → ids_generated uuid_gen (perform uuid_gen w c).
Proof.
  intros Hw jobId. destruct c as [params|j requested extra|fileName contentType].
  - cbn [perform]. rewrite createJob_unfold. cbn zeta.
    cbn [snd jobRepository uuidCalls id].
    destruct (decide (uuid_gen (uuidCalls w) = jobId)) as [<-|Hne].
    + intros _. exists (uuidCalls w). split; [lia | reflexivity].
    + rewrite lookup_insert_ne by exact Hne.
      intros (n & Hn & ->)%Hw. exists n. split; [lia | reflexivity].
  - cbn [perform JobsService.updateJobStatus jobRepository uuidCalls].
    unfold repo_update. rewrite lookup_alter_is_Some. apply Hw.
  - cbn [perform UploadService.getPresignedUrl uuid snd jobRepository uuidCalls].
    intros (n & Hn & ->)%Hw. exists n. split; [lia | reflexivity].
Qed.

Lemma ids_generated_run (uuid_gen : nat → string) (calls : list Call) (w : World) :
  ids_generated uuid_gen w → ids_generated uuid_gen (run uuid_gen calls w).
Proof.
  revert w. induction calls as [|c calls IH]; intros w Hw; [exact Hw|].
  apply IH, ids_generated_perform, Hw.
Qed.

(** The next value of an injective generator is none of the earlier ones,
    and so the id of no stored job. *)
Lemma next_uuid_fresh (uuid_gen : nat → string) (w : World) :
  Inj (=) (=) uuid_gen → ids_generated uuid_gen w →
  (∀ n, n < uuidCalls w → uuid_gen n ≠ uuid_gen (uuidCalls w)) ∧
  jobRepository w !! uuid_gen (uuidCalls w) = None.
Proof.
  intros Hinj Hw.
  assert (Hearlier : ∀ n, n < uuidCalls w → uuid_gen n ≠ uuid_gen (uuidCalls w)).
  { intros n Hn Heq. apply Hinj in Heq. lia. }
  split; [exact Hearlier|].
  destruct (jobRepository w !! uuid_gen (uuidCalls w)) as [job|] eqn:Hjob;
    [|reflexivity].
  destruct (Hw (uuid_gen (uuidCalls w))) as (n & Hn & Heq); [eauto|].
  exfalso. exact (Hearlier n Hn (eq_sym Heq)).
Qed.

(** The generated id, the owner and the derived kind are the three values
    of a new job that can be wider than their columns. *)
Lemma fits_columns_created (uuid_gen : nat → string)
    (params : JobsService.CreateJobParams) (w : World) :
  (String.length (uuid_gen (uuidCalls w)) ≤ 36)%nat →
  (String.length (JS.or_else (JobsService.param_userId params) "guest") ≤ 36)%nat →
  (String.length (JobsService.extension_of (JobsService.param_inputFileKey params)) ≤ 20)%nat →
  Async.fits_columns (fst (JobsService.createJob uuid_gen params w)) = true.
Proof.
  intros Hid Howner Hkind. rewrite createJob_unfold. cbn zeta.
  unfold Async.fits_columns.
  cbn [fst id userId inputFileType documentType status].
  rewrite !andb_true_iff, !Nat.leb_le.
  repeat split; try assumption.
  - destruct (JobsService.param_documentType params); simpl; lia.
  - simpl. lia.
Qed.

(** With its save and its send accepted, the call does what
    [JobsService.createJob] does. *)
Lemma async_createJob_resolves (uuid_gen : nat → string)
    (params : JobsService.CreateJobParams) (w : World) :
  Async.fits_columns (fst (JobsService.createJob uuid_gen params w)) = true →
  Async.createJob uuid_gen true params w
  = (Resolved (fst (JobsService.createJob uuid_gen params w)),
     snd (JobsService.createJob uuid_gen params w)).
Proof.
  intros Hfits. rewrite createJob_unfold in *. cbn zeta in *. cbn [fst snd] in *.
  unfold Async.createJob, Async.save, uuid. cbn zeta. rewrite Hfits.
  reflexivity.
Qed.

(** With its save accepted and its send rejected, the call rejects and
    leaves the job stored and the queue as it was. *)
Lemma async_createJob_stranded (uuid_gen : nat → string)
    (params : JobsService.CreateJobParams) (w : World) :
  Async.fits_columns (fst (JobsService.createJob uuid_gen params w)) = true →
  Async.createJob uuid_gen false params w
  = (Rejected,
     mkWorld (jobRepository (snd (JobsService.createJob uuid_gen params w)))
             (sqsQueue w) (S (uuidCalls w))).
Proof.
  intros Hfits. rewrite createJob_unfold in *. cbn zeta in *. cbn [fst snd] in *.
  unfold Async.createJob, Async.save, uuid. cbn zeta. rewrite Hfits.
  reflexivity.
Qed.

(** Whatever way the call settles, the stored ids stay values [uuid()] has
    returned. *)
Lemma ids_generated_async_createJob (uuid_gen : nat → string)
    (sqs_accepts : bool) (params : JobsService.CreateJobParams) (w : World) :
  ids_generated uuid_gen w →
  ids_generated uuid_gen (snd (Async.createJob uuid_gen sqs_accepts params w)).
Proof.
  intros Hw jobId. unfold Async.createJob, Async.save, Async.send, uuid.
  cbn zeta.
  destruct (Async.fits_columns _); [destruct sqs_accepts|];
    unfold sendJobMessage, repo_save;
    cbn [snd jobRepository uuidCalls id].
  1,2: destruct (decide (uuid_gen (uuidCalls w) = jobId)) as [<-|Hne];
    [intros _; exists (uuidCalls w); split; [lia | reflexivity]
    |rewrite lookup_insert_ne by exact Hne;
     intros (n & Hn & ->)%Hw; exists n; split; [lia | reflexivity]].
  intros (n & Hn & ->)%Hw. exists n. split; [lia | reflexivity].
Qed.

(** C6 (valid submissions, as the code serves them).  Let [uuid()] never
    return a value twice, and take a world in which every stored id is a
    value [uuid()] returned earlier.  A body that meets the constraints of
    [CreateJobDto], submitted on either route, whose derived kind has at most
    20 characters and whose generated id and owner have at most 36, is read
    as a [CreateJobDto].  When the queue takes the message,
    [createJob] stores and returns a job whose status is PENDING and whose
    id is the value [uuid()] has just returned, the id of no job stored
    before and none of the values returned before, and which the call has
    used up; its message is appended to the queue; and the caller's answer
    is the object with the two properties [jobId] and [status].  When the queue does not take the
    message, the request is rejected with that same job stored and the queue
    unchanged. *)
Theorem valid_submission_creates_pending_job (uuid_gen : nat → string)
    (requester : option AuthUser) (raw : RawBody) (key : string) (w : World) :
  Inj (=) (=) uuid_gen →
  ids_generated uuid_gen w →
  CreateJobDto_violations raw = [] →
  raw_inputFileKey raw = JsonString key →
  (String.length (JobsService.extension_of key) ≤ 20)%nat →
  (String.length (uuid_gen (uuidCalls w)) ≤ 36)%nat →
  (String.length (JS.or_else (auth_userId <$> requester) "guest") ≤ 36)%nat →
  ∃ dto job w',
    Routes.ValidationPipe raw = inr dto ∧
    Async.createJob uuid_gen true
      (JobsService.mkCreateJobParams (auth_userId <$> requester)
         (dto_inputFileKey dto) (dto_documentType dto)) w = (Resolved job, w') ∧
    Async.submit uuid_gen true requester raw w
      = (Resolved (Handled [("jobId", JStr (id job)); ("status", JStr "PENDING")]),
         w') ∧
    status job = "PENDING" ∧
    jobRepository w' !! id job = Some job ∧
    id job = uuid_gen (uuidCalls w) ∧
    jobRepository w !! id job = None ∧
    (∀ n, n < uuidCalls w → uuid_gen n ≠ id job) ∧
    sqsQueue w' = (sqsQueue w ++ [message_of job])%list ∧
    uuidCalls w' = S (uuidCalls w) ∧
    ∃ stranded,
      Async.submit uuid_gen false requester raw w = (Rejected, stranded) ∧
      jobRepository stranded !! id job = Some job ∧
      sqsQueue stranded = sqsQueue w.
Proof.
  intros Hinj Hgen Hvalid Hraw Hkind Hid Howner.
  destruct (ValidationPipe_valid raw Hvalid) as (key' & d & -> & Hkey & Hpipe).
  cbn [raw_inputFileKey] in Hraw. injection Hraw as ->.
  destruct (next_uuid_fresh uuid_gen w Hinj Hgen) as [Hearlier Hrow].
  set (params :=
         JobsService.mkCreateJobParams (auth_userId <$> requester) key d).
  assert (Hfits :
    Async.fits_columns (fst (JobsService.createJob uuid_gen params w)) = true)
    by (apply fits_columns_created; assumption).
  pose proof (async_createJob_resolves uuid_gen params w Hfits) as Hok.
  pose proof (async_createJob_stranded uuid_gen params w Hfits) as Hbad.
  rewrite createJob_unfold in Hok, Hbad. cbn zeta in Hok, Hbad.
  cbn [fst snd jobRepository] in Hok, Hbad.
  eexists (mkCreateJobDto key d), _, _.
  split; [exact Hpipe|]. split; [exact Hok|].
  cbn [id status jobRepository sqsQueue].
  split.
  { unfold Async.submit, Async.postJob, Async.postGuestJob. rewrite Hpipe.
    cbn [dto_inputFileKey dto_documentType].
    destruct requester as [user|]; cbn [fmap option_fmap option_map] in *;
      fold params; rewrite Hok; reflexivity. }
  split; [reflexivity|]. split; [apply lookup_insert_eq|].
  split; [reflexivity|]. split; [exact Hrow|]. split; [exact Hearlier|].
  split; [reflexivity|]. split; [reflexivity|].
  eexists. split.
  { unfold Async.submit, Async.postJob, Async.postGuestJob. rewrite Hpipe.
    cbn [dto_inputFileKey dto_documentType].
    destruct requester as [user|]; cbn [fmap option_fmap option_map] in *;
      fold params; rewrite Hbad; reflexivity. }
  cbn [jobRepository sqsQueue]. split; [apply lookup_insert_eq | reflexivity].
Qed.

(** Alice's valid submission, after one guest submission. *)
Lemma valid_submission_creates_pending_job_witness :
  let raw := mkRawBody (JsonString "uploads/abc-invoice.pdf") (JsonString "EXPENSE") in
  let requester := Some (mkAuthUser "alice") in
  let w := snd guest_submission in
  ∃ dto job w',
    Routes.ValidationPipe raw = inr dto ∧
    Async.createJob demo_uuid true
      (JobsService.mkCreateJobParams (auth_userId <$> requester)
         (dto_inputFileKey dto) (dto_documentType dto)) w = (Resolved job, w') ∧
    Async.submit demo_uuid true requester raw w
      = (Resolved (Handled [("jobId", JStr (id job)); ("status", JStr "PENDING")]),
         w') ∧
    status job = "PENDING" ∧
    jobRepository w' !! id job = Some job ∧
    id job = demo_uuid (uuidCalls w) ∧
    jobRepository w !! id job = None ∧
    (∀ n, n < uuidCalls w → demo_uuid n ≠ id job) ∧
    sqsQueue w' = (sqsQueue w ++ [message_of job])%list ∧
    uuidCalls w' = S (uuidCalls w) ∧
    ∃ stranded,
      Async.submit demo_uuid false requester raw w = (Rejected, stranded) ∧
      jobRepository stranded !! id job = Some job ∧
      sqsQueue stranded = sqsQueue w.
Proof.
  cbn zeta.
  refine (valid_submission_creates_pending_job demo_uuid
            (Some (mkAuthUser "alice"))
            (mkRawBody (JsonString "uploads/abc-invoice.pdf") (JsonString "EXPENSE"))
            "uploads/abc-invoice.pdf" (snd guest_submission)
            demo_uuid_inj _ eq_refl eq_refl _ _ _).
  - exact (ids_generated_run demo_uuid
             [CallCreateJob
                (JobsService.mkCreateJobParams None "uploads/abc-invoice.pdf" EXPENSE)]
             initial_world (ids_generated_initial demo_uuid)).
  - vm_compute. lia.
  - vm_compute. lia.
  - vm_compute. lia.
Defined.

(** C6, counterexample.  Three bodies that meet the constraints of
    [CreateJobDto], submitted by a guest into the empty world.  For the key
    with a 25-character extension, and for the 52-character key without a
    '.', the save is refused: the request is rejected, no job is stored and
    nothing is sent.  For the third, the queue does not take the message:
    the request is rejected although the job is stored as PENDING. *)
Lemma valid_submission_without_answer :
  let long_kind :=
    mkRawBody (JsonString "uploads/report.averyveryverylongextension")
              (JsonString "EXPENSE") in
  let no_dot :=
    mkRawBody (JsonString "uploads/0f8fad5b-d9cb-469f-a165-70867728950e-invoice")
              (JsonString "EXPENSE") in
  let plain :=
    mkRawBody (JsonString "uploads/abc-invoice.pdf") (JsonString "EXPENSE") in
  (CreateJobDto_violations long_kind = [] ∧
   Async.submit demo_uuid true None long_kind initial_world
   = (Rejected, mkWorld ∅ [] 1)) ∧
  (CreateJobDto_violations no_dot = [] ∧
   Async.submit demo_uuid true None no_dot initial_world
   = (Rejected, mkWorld ∅ [] 1)) ∧
  (CreateJobDto_violations plain = [] ∧
   fst (Async.submit demo_uuid false None plain initial_world) = Rejected ∧
   status <$> jobRepository
                (snd (Async.submit demo_uuid false None plain initial_world)) !! "0"
   = Some "PENDING" ∧
   sqsQueue (snd (Async.submit demo_uuid false None plain initial_world)) = []).
Proof. repeat split; vm_compute; reflexivity. Qed.

(** ** C7: submissions with a bad document type *)

(** C7 (bad document type).  A body whose [documentType] is neither the
    string "EXPENSE" nor the string "HR" is answered, on either submission
    route, with a validation error that names [documentType], and the world
    is the one before the request: the same rows, the same queue. *)
Theorem bad_documentType_is_rejected (uuid_gen : nat → string)
    (requester : option AuthUser) (raw : RawBody) (w : World) :
  raw_documentType raw ≠ JsonString "EXPENSE" →
  raw_documentType raw ≠ JsonString "HR" →
  ∃ violations,
    "documentType" ∈ violations ∧
    Routes.submit uuid_gen requester raw w = (ValidationError violations, w) ∧
    jobRepository (snd (Routes.submit uuid_gen requester raw w)) = jobRepository w ∧
    sqsQueue (snd (Routes.submit uuid_gen requester raw w)) = sqsQueue w.
Proof.
  intros Hexpense Hhr.
  assert (Hin : ClassValidator.IsIn ["EXPENSE"; "HR"] (raw_documentType raw) = false).
  { destruct (raw_documentType raw) as [| | |?|doc]; try reflexivity.
    apply bool_decide_eq_false. rewrite !elem_of_cons.
    intros [->|[->|Hnil]]; [congruence | congruence | inversion Hnil]. }
  assert (Hsubmit :
    Routes.submit uuid_gen requester raw w
    = (ValidationError (CreateJobDto_violations raw), w)).
  { unfold Routes.submit, Routes.POST_jobs, Routes.POST_jobs_guest,
      Routes.ValidationPipe.
    assert (Hne : CreateJobDto_violations raw ≠ []).
    { unfold CreateJobDto_violations. rewrite Hin.
      intros [_ Habs]%app_eq_nil. discriminate. }
    destruct (CreateJobDto_violations raw) as [|v vs]; [congruence|].
    destruct requester; reflexivity. }
  exists (CreateJobDto_violations raw). rewrite Hsubmit.
  split; [|repeat split].
  unfold CreateJobDto_violations. rewrite Hin.
  apply elem_of_app. right. apply list_elem_of_here.
Qed.

(** A guest submission with the document type "INVOICE". *)
Lemma bad_documentType_is_rejected_witness :
  let raw := mkRawBody (JsonString "uploads/abc-invoice.pdf") (JsonString "INVOICE") in
  ∃ violations,
    "documentType" ∈ violations ∧
    Routes.submit demo_uuid None raw (snd guest_submission)
    = (ValidationError violations, snd guest_submission) ∧
    jobRepository (snd (Routes.submit demo_uuid None raw (snd guest_submission)))
    = jobRepository (snd guest_submission) ∧
    sqsQueue (snd (Routes.submit demo_uuid None raw (snd guest_submission)))
    = sqsQueue (snd guest_submission).
Proof.
  cbn zeta.
  apply (bad_documentType_is_rejected demo_uuid None
           (mkRawBody (JsonString "uploads/abc-invoice.pdf") (JsonString "INVOICE"))
           (snd guest_submission));
    simpl; discriminate.
Defined.

(** ** C8: the download routes *)

Ltac settle_handler Hsees :=
  unfold Async.downloadJobResult, Async.downloadGuestJobResult,
    Async.generateDownloadUrl, Async.signed, Async.presigner_accepts,
    HttpStatus.NOT_FOUND, HttpStatus.ACCEPTED, HttpStatus.BAD_REQUEST,
    HttpStatus.OK;
  cbn zeta; rewrite Hsees.

(** C8 (download outcome by status, as the code gives it).  For a job the
    requester sees, either download route settles as follows.  PENDING or
    PROCESSING: the 202 object with the status and the "still being
    processed" message, which is not the not-found object and carries
    neither an error nor a URL.  FAILED: the 400 object with a non-empty
    diagnostic and no URL.  COMPLETED: when the job has a non-empty
    [outputFileKey] and a bucket is configured, the 200 object whose URL is
    signed for a GET of that key in that bucket and lasts 300 seconds; when
    the job has no [outputFileKey], or no bucket is configured, the request
    is rejected inside the presigner and there is no answer object. *)
Theorem download_outcome_by_status (S3_BUCKET : option string) (w : World)
    (jobId : string) (job : Job) (outcome : Settled Response) :
  download_settles S3_BUCKET w jobId job outcome →
  (status job = "PENDING" ∨ status job = "PROCESSING" →
     ∃ answer,
       outcome = Resolved answer ∧
       answer = [("statusCode", JNum 202); ("status", JStr (status job));
                 ("message", JStr "Document is still being processed")] ∧
       answer ≠ not_found_body ∧
       field "error" answer = None ∧
       field "downloadUrl" answer = None) ∧
  (status job = "FAILED" →
     ∃ answer diagnostic,
       outcome = Resolved answer ∧
       diagnostic ≠ "" ∧
       answer = [("statusCode", JNum 400); ("status", JStr "FAILED");
                 ("error", JStr diagnostic)] ∧
       field "downloadUrl" answer = None) ∧
  (status job = "COMPLETED" →
     (∀ bucket key,
        S3_BUCKET = Some bucket → bucket ≠ "" →
        outputFileKey job = Some key → key ≠ "" →
        ∃ downloadUrl,
          outcome = Resolved [("statusCode", JNum 200);
                              ("status", JStr "COMPLETED");
                              ("downloadUrl", JUrl downloadUrl)] ∧
          signed_command downloadUrl = GetObjectCommand (Some bucket) (Some key) ∧
          signed_method downloadUrl = "GET" ∧
          expiresIn downloadUrl = 300) ∧
     (outputFileKey job = None ∨ S3_BUCKET = None → outcome = Rejected)).
Proof.
  intros [user seen Hsees|seen Hsees]; settle_handler Hsees;
    (split; [|split]).
  all: try (intros [Hs|Hs]; rewrite Hs; cbn;
            (eexists; split; [reflexivity|]); repeat split;
            first [reflexivity | unfold not_found_body; discriminate]).
  all: try (intros Hs; rewrite Hs; cbn;
            eexists _, (JS.or_else (errorMessage seen) "Processing failed");
            (split; [reflexivity|]);
            (split; [apply or_else_non_empty; discriminate | split; reflexivity])).
  all: intros Hs; rewrite Hs; cbn; split.
  all: try (intros bucket key -> Hbucket -> Hkey;
            rewrite (proj2 (truthy_Some bucket) Hbucket),
                    (proj2 (truthy_Some key) Hkey); cbn;
            eexists; repeat split).
  all: intros [-> | ->]; [rewrite andb_false_r | ]; reflexivity.
Qed.

(** The guest download of a COMPLETED job with its output key. *)
Lemma download_outcome_by_status_witness :
  let w :=
    JobsService.updateJobStatus "0" "COMPLETED"
      (Some (JobsService.mkExtra (Some "outputs/0-result.xlsx") None))
      (snd guest_submission) in
  let job :=
    mkJob "0" "guest" "uploads/abc-invoice.pdf" "pdf" EXPENSE "COMPLETED"
          (Some "outputs/0-result.xlsx") None in
  let outcome := Async.downloadGuestJobResult (Some "documents") "0" w in
  download_settles (Some "documents") w "0" job outcome ∧
  (status job = "PENDING" ∨ status job = "PROCESSING" →
     ∃ answer,
       outcome = Resolved answer ∧
       answer = [("statusCode", JNum 202); ("status", JStr (status job));
                 ("message", JStr "Document is still being processed")] ∧
       answer ≠ not_found_body ∧
       field "error" answer = None ∧
       field "downloadUrl" answer = None) ∧
  (status job = "FAILED" →
     ∃ answer diagnostic,
       outcome = Resolved answer ∧
       diagnostic ≠ "" ∧
       answer = [("statusCode", JNum 400); ("status", JStr "FAILED");
                 ("error", JStr diagnostic)] ∧
       field "downloadUrl" answer = None) ∧
  (status job = "COMPLETED" →
     (∀ bucket key,
        Some "documents" = Some bucket → bucket ≠ "" →
        outputFileKey job = Some key → key ≠ "" →
        ∃ downloadUrl,
          outcome = Resolved [("statusCode", JNum 200);
                              ("status", JStr "COMPLETED");
                              ("downloadUrl", JUrl downloadUrl)] ∧
          signed_command downloadUrl = GetObjectCommand (Some bucket) (Some key) ∧
          signed_method downloadUrl = "GET" ∧
          expiresIn downloadUrl = 300) ∧
     (outputFileKey job = None ∨ Some "documents" = None → outcome = Rejected)).
Proof.
  cbn zeta.
  assert (Hsettles :
    download_settles (Some "documents")
      (JobsService.updateJobStatus "0" "COMPLETED"
         (Some (JobsService.mkExtra (Some "outputs/0-result.xlsx") None))
         (snd guest_submission))
      "0"
      (mkJob "0" "guest" "uploads/abc-invoice.pdf" "pdf" EXPENSE "COMPLETED"
             (Some "outputs/0-result.xlsx") None)
      (Async.downloadGuestJobResult (Some "documents") "0"
         (JobsService.updateJobStatus "0" "COMPLETED"
            (Some (JobsService.mkExtra (Some "outputs/0-result.xlsx") None))
            (snd guest_submission)))).
  { apply settles_guest. vm_compute. reflexivity. }
  split; [exact Hsettles|].
  exact (download_outcome_by_status _ _ _ _ _ Hsettles).
Defined.

(** C8, counterexample.  After [updateJobStatus("0", "COMPLETED")] with no
    extra object the guest job is COMPLETED, the guest download route sees
    it, and the request is rejected: no 200 object, no URL. *)
Lemma completed_job_without_url :
  let w :=
    JobsService.updateJobStatus "0" "COMPLETED" None (snd guest_submission) in
  status <$> JobsService.getJobById "0" None w = Some "COMPLETED" ∧
  outputFileKey <$> JobsService.getJobById "0" None w = Some None ∧
  Async.downloadGuestJobResult (Some "documents") "0" w = Rejected.
Proof. repeat split; vm_compute; reflexivity. Qed.

(** ** C9: upload grants *)

Lemma uuidCalls_perform (uuid_gen : nat → string) (w : World) (c : Call) :
  (uuidCalls w ≤ uuidCalls (perform uuid_gen w c))%nat.
Proof. destruct c; simpl; lia. Qed.

Lemma uuidCalls_run (uuid_gen : nat → string) (calls : list Call) (w : World) :
  (uuidCalls w ≤ uuidCalls (run uuid_gen calls w))%nat.
Proof.
  revert w. induction calls as [|c calls IH]; intros w; [reflexivity|].
  unfold run in *. cbn [foldl].
  etransitivity; [apply (uuidCalls_perform uuid_gen w c) | apply IH].
Qed.

(** C9 (upload grants).  Let [uuid()] never return a value twice.  The key of
    a grant is "uploads/", the value [uuid()] has just returned, a dash and
    the file name.  That value is none of those returned before, and the
    call uses it up: the count of [uuid()] calls goes up by one, so whatever
    submissions, updates and grants follow, the next value [uuid()] returns
    is a different one.  The call stores nothing and sends nothing.  The URL
    is signed for a PUT of that key and content type in the configured bucket
    and lasts 300 seconds. *)
Theorem upload_grant_key_and_lifetime (uuid_gen : nat → string)
    (S3_BUCKET : option string) (fileName contentType : string) (w : World) :
  Inj (=) (=) uuid_gen →
  let issued :=
    UploadService.getPresignedUrl uuid_gen S3_BUCKET fileName contentType w in
  let grant := fst issued in
  let token := uuid_gen (uuidCalls w) in
  UploadService.key grant = "uploads/" +:+ token +:+ "-" +:+ fileName ∧
  (∀ n, n < uuidCalls w → uuid_gen n ≠ token) ∧
  uuidCalls (snd issued) = S (uuidCalls w) ∧
  (∀ calls,
     uuid_gen (uuidCalls (run uuid_gen calls (snd issued))) ≠ token) ∧
  jobRepository (snd issued) = jobRepository w ∧
  sqsQueue (snd issued) = sqsQueue w ∧
  signed_command (UploadService.url grant)
  = PutObjectCommand S3_BUCKET (UploadService.key grant) contentType ∧
  signed_method (UploadService.url grant) = "PUT" ∧
  expiresIn (UploadService.url grant) = 300.
Proof.
  intros Hinj. cbn zeta.
  split; [reflexivity|]. split.
  { intros n Hn Heq. apply Hinj in Heq. lia. }
  split; [reflexivity|]. split.
  { intros calls Heq. apply Hinj in Heq.
    pose proof (uuidCalls_run uuid_gen calls
                  (snd (UploadService.getPresignedUrl uuid_gen S3_BUCKET
                          fileName contentType w))) as Hle.
    rewrite Heq in Hle. simpl in Hle. lia. }
  repeat split.
Qed.

(** The grant for "r.jpg" issued after one submission. *)
Lemma upload_grant_key_and_lifetime_witness :
  let issued :=
    UploadService.getPresignedUrl demo_uuid (Some "documents")
      "r.jpg" "image/jpeg" (snd guest_submission) in
  let grant := fst issued in
  UploadService.key grant = "uploads/1-r.jpg" ∧
  (∀ n, n < 1 → demo_uuid n ≠ "1") ∧
  uuidCalls (snd issued) = 2 ∧
  (∀ calls, demo_uuid (uuidCalls (run demo_uuid calls (snd issued))) ≠ "1") ∧
  jobRepository (snd issued) = jobRepository (snd guest_submission) ∧
  sqsQueue (snd issued) = sqsQueue (snd guest_submission) ∧
  signed_command (UploadService.url grant)
  = PutObjectCommand (Some "documents") "uploads/1-r.jpg" "image/jpeg" ∧
  signed_method (UploadService.url grant) = "PUT" ∧
  expiresIn (UploadService.url grant) = 300.
Proof.
  exact (upload_grant_key_and_lifetime demo_uuid (Some "documents")
           "r.jpg" "image/jpeg" (snd guest_submission) demo_uuid_inj).
Defined.

(** ** C10: the error of a failed job *)

(** C10 (error text of a failed job).  For a FAILED job the requester sees,
    either status route answers the object with the job's id, the status and
    an [error] that is never empty: the job's [errorMessage] when that is a
    non-empty string, and "Processing failed" when it is NULL or empty. *)
Theorem failed_status_read_error (w : World) (jobId : string) (job : Job)
    (answer : Response) :
  status_read w jobId job answer →
  status job = "FAILED" →
  ∃ error,
    answer = [("jobId", JStr (id job)); ("status", JStr "FAILED");
              ("error", JStr error)] ∧
    error ≠ "" ∧
    (∀ message, errorMessage job = Some message → message ≠ "" → error = message) ∧
    (¬ non_empty (errorMessage job) → error = "Processing failed").
Proof.
  intros [user seen Hsees|seen Hsees] Hfailed; run_handler Hsees;
    rewrite Hfailed; cbn;
    exists (JS.or_else (errorMessage seen) "Processing failed");
    (split; [reflexivity|]);
    (split; [apply or_else_non_empty; discriminate|]);
    (split; [intros message Hm Hne; exact (or_else_truthy _ _ _ Hm Hne)|]);
    intros Hempty; apply or_else_falsy;
    unfold non_empty in Hempty; destruct (JS.truthy (errorMessage seen));
    congruence.
Qed.

(** The guest status read of a job that FAILED with an empty message. *)
Lemma failed_status_read_error_witness :
  let w :=
    JobsService.updateJobStatus "0" "FAILED"
      (Some (JobsService.mkExtra None (Some ""))) (snd guest_submission) in
  let job :=
    mkJob "0" "guest" "uploads/abc-invoice.pdf" "pdf" EXPENSE "FAILED"
          None (Some "") in
  let answer := JobsController.getGuestJobStatus "0" w in
  status_read w "0" job answer ∧
  status job = "FAILED" ∧
  ∃ error,
    answer = [("jobId", JStr (id job)); ("status", JStr "FAILED");
              ("error", JStr error)] ∧
    error ≠ "" ∧
    (∀ message, errorMessage job = Some message → message ≠ "" → error = message) ∧
    (¬ non_empty (errorMessage job) → error = "Processing failed").
Proof.
  cbn zeta.
  assert (Hread :
    status_read
      (JobsService.updateJobStatus "0" "FAILED"
         (Some (JobsService.mkExtra None (Some ""))) (snd guest_submission))
      "0"
      (mkJob "0" "guest" "uploads/abc-invoice.pdf" "pdf" EXPENSE "FAILED"
             None (Some ""))
      (JobsController.getGuestJobStatus "0"
         (JobsService.updateJobStatus "0" "FAILED"
            (Some (JobsService.mkExtra None (Some ""))) (snd guest_submission)))).
  { apply status_guest. vm_compute. reflexivity. }
  split; [exact Hread|]. split; [reflexivity|].
  exact (failed_status_read_error _ _ _ _ Hread eq_refl).
Defined.

(** * Further facts about the code *)

(** ** More on strings *)

Lemma string_app_assoc (a b c : string) : (a +:+ b) +:+ c = a +:+ (b +:+ c).
Proof.
  induction a as [|x a IH]; [reflexivity|].
  change (String x ((a +:+ b) +:+ c) = String x (a +:+ (b +:+ c))).
  rewrite IH. reflexivity.
Qed.

(** Equal concatenations with heads of the same length have equal heads. *)
Lemma string_app_inj_length (a b x y : string) :
  String.length a = String.length b → a +:+ x = b +:+ y → a = b.
Proof.
  revert b. induction a as [|c a IH]; intros [|d b]; simpl; try discriminate.
  - reflexivity.
  - intros [= Hlen] [= -> Happ]. f_equal. exact (IH b Hlen Happ).
Qed.

(** No piece of a split contains the separator. *)
Lemma split_pieces_without (sep : ascii) (s : string) :
  Forall (λ piece, JS.contains sep piece = false) (JS.split sep s).
Proof.
  induction s as [|c s IH]; simpl.
  - repeat constructor.
  - destruct (Ascii.eqb c sep) eqn:Hc.
    + constructor; [reflexivity | exact IH].
    + destruct (JS.split sep s) as [|piece pieces].
      * repeat constructor. simpl. rewrite Hc. reflexivity.
      * inversion IH as [|? ? Hpiece Hpieces]; subst.
        constructor; [|exact Hpieces]. simpl. rewrite Hc. exact Hpiece.
Qed.

(** ** The input kind of a job *)

(** X1.  Whatever the input key, the [inputFileType] of the job [createJob]
    stores is not the empty string and contains no '.'. *)
Theorem inputFileType_never_empty_nor_dotted (uuid_gen : nat → string)
    (params : JobsService.CreateJobParams) (w : World) :
  let job := fst (JobsService.createJob uuid_gen params w) in
  inputFileType job ≠ "" ∧ JS.contains "." (inputFileType job) = false.
Proof.
  rewrite createJob_unfold. cbn zeta. cbn [fst inputFileType].
  unfold JobsService.extension_of.
  split; [apply or_else_non_empty; discriminate|].
  pose proof (split_pieces_without "." (JobsService.param_inputFileKey params))
    as Hpieces.
  unfold JS.pop.
  destruct (last (JS.split "." (JobsService.param_inputFileKey params)))
    as [piece|] eqn:Hlast; [|reflexivity].
  apply last_Some in Hlast as [front Hsplit]. rewrite Hsplit in Hpieces.
  apply Forall_app in Hpieces as [_ Hpiece].
  inversion Hpiece as [|? ? Hdot _]; subst.
  destruct piece; [reflexivity | exact Hdot].
Qed.

(** X2.  When the input key is [p ++ "." ++ e] and [e] contains no '.', the
    [inputFileType] of the stored job is [e], and the sentinel "unknown"
    when [e] is empty. *)
Theorem inputFileType_after_last_dot (uuid_gen : nat → string)
    (uid : option string) (d : DocumentType) (w : World) (p e : string) :
  JS.contains "." e = false →
  inputFileType
    (fst (JobsService.createJob uuid_gen
            (JobsService.mkCreateJobParams uid (p +:+ String "." e) d) w))
  = if bool_decide (e = "") then "unknown" else e.
Proof.
  intros He. rewrite createJob_unfold. cbn zeta.
  cbn [fst inputFileType JobsService.param_inputFileKey].
  apply extension_of_suffix, He.
Qed.

(** The key "archive.tar.gz": the kind is "gz". *)
Lemma inputFileType_after_last_dot_witness :
  inputFileType
    (fst (JobsService.createJob demo_uuid
            (JobsService.mkCreateJobParams None ("archive.tar" +:+ String "." "gz") HR)
            initial_world))
  = "gz".
Proof.
  exact (inputFileType_after_last_dot demo_uuid None HR initial_world
           "archive.tar" "gz" eq_refl).
Defined.

(** ** Upload grants *)

(** X3.  A job submitted with the key of an upload grant has as its
    [inputFileType] the extension of the uploaded file's name, when that name
    is [p ++ "." ++ e] with [e] non-empty and free of '.': neither the
    "uploads/" prefix nor the token gets in the way. *)
Theorem uploaded_file_kind (uuid_gen : nat → string) (S3_BUCKET : option string)
    (body : UploadController.Body) (uid : option string) (d : DocumentType)
    (w : World) (p e : string) :
  UploadController.fileName body = p +:+ String "." e →
  JS.contains "." e = false →
  e ≠ "" →
  let upload := UploadController.getPresignedUrl uuid_gen S3_BUCKET body w in
  let guest_upload :=
    UploadController.getGuestPresignedUrl uuid_gen S3_BUCKET body w in
  inputFileType
    (fst (JobsService.createJob uuid_gen
            (JobsService.mkCreateJobParams uid
               (UploadService.key (fst upload)) d) (snd upload))) = e ∧
  inputFileType
    (fst (JobsService.createJob uuid_gen
            (JobsService.mkCreateJobParams uid
               (UploadService.key (fst guest_upload)) d) (snd guest_upload))) = e.
Proof.
  intros Hname He Hne. cbn zeta.
  unfold UploadController.getPresignedUrl, UploadController.getGuestPresignedUrl,
    UploadService.getPresignedUrl, uuid. cbn [fst snd UploadService.key].
  rewrite Hname.
  assert (Hkey : ∀ token,
    "uploads/" +:+ token +:+ "-" +:+ p +:+ String "." e
    = ("uploads/" +:+ token +:+ "-" +:+ p) +:+ String "." e).
  { intros token. rewrite !string_app_assoc. reflexivity. }
  rewrite !createJob_unfold. cbn zeta.
  cbn [fst inputFileType JobsService.param_inputFileKey].
  rewrite Hkey, extension_of_suffix by exact He.
  rewrite bool_decide_eq_false_2 by exact Hne. split; reflexivity.
Qed.

(** The file "r.jpg", uploaded and then submitted by a guest. *)
Lemma uploaded_file_kind_witness :
  let body := UploadController.mkBody "r.jpg" "image/jpeg" in
  let upload :=
    UploadController.getPresignedUrl demo_uuid (Some "documents") body
      initial_world in
  let guest_upload :=
    UploadController.getGuestPresignedUrl demo_uuid (Some "documents") body
      initial_world in
  inputFileType
    (fst (JobsService.createJob demo_uuid
            (JobsService.mkCreateJobParams None
               (UploadService.key (fst upload)) EXPENSE) (snd upload))) = "jpg" ∧
  inputFileType
    (fst (JobsService.createJob demo_uuid
            (JobsService.mkCreateJobParams None
               (UploadService.key (fst guest_upload)) EXPENSE) (snd guest_upload)))
  = "jpg".
Proof.
  refine (uploaded_file_kind demo_uuid (Some "documents")
            (UploadController.mkBody "r.jpg" "image/jpeg") None EXPENSE
            initial_world "r" "jpg" eq_refl eq_refl _).
  discriminate.
Defined.

(** X4.  Two upload grants whose tokens differ and have the same length (as
    the values of [uuid()] have) carry different keys, whatever the two file
    names, on either route. *)
Theorem upload_keys_differ (uuid_gen : nat → string) (S3_BUCKET : option string)
    (body1 body2 : UploadController.Body) (w1 w2 : World) :
  String.length (uuid_gen (uuidCalls w1)) = String.length (uuid_gen (uuidCalls w2)) →
  uuid_gen (uuidCalls w1) ≠ uuid_gen (uuidCalls w2) →
  let key_of grant := UploadService.key (fst grant) in
  key_of (UploadController.getPresignedUrl uuid_gen S3_BUCKET body1 w1)
  ≠ key_of (UploadController.getPresignedUrl uuid_gen S3_BUCKET body2 w2) ∧
  key_of (UploadController.getPresignedUrl uuid_gen S3_BUCKET body1 w1)
  ≠ key_of (UploadController.getGuestPresignedUrl uuid_gen S3_BUCKET body2 w2) ∧
  key_of (UploadController.getGuestPresignedUrl uuid_gen S3_BUCKET body1 w1)
  ≠ key_of (UploadController.getGuestPresignedUrl uuid_gen S3_BUCKET body2 w2).
Proof.
  intros Hlen Hne. cbn zeta.
  unfold UploadController.getPresignedUrl, UploadController.getGuestPresignedUrl,
    UploadService.getPresignedUrl, uuid. cbn [fst UploadService.key].
  assert (Hkeys : ∀ f1 f2,
    "uploads/" +:+ uuid_gen (uuidCalls w1) +:+ "-" +:+ f1
    ≠ "uploads/" +:+ uuid_gen (uuidCalls w2) +:+ "-" +:+ f2).
  { intros f1 f2 Heq. apply Hne.
    change ("uploads/" +:+ ?x) with
      (String "u" (String "p" (String "l" (String "o" (String "a"
         (String "d" (String "s" (String "/" x)))))))) in Heq.
    injection Heq as Heq.
    exact (string_app_inj_length _ _ _ _ Hlen Heq). }
  repeat split; apply Hkeys.
Qed.

(** The first two grants of the example generator: tokens "0" and "1", the
    same file name. *)
Lemma upload_keys_differ_witness :
  let body := UploadController.mkBody "r.jpg" "image/jpeg" in
  let first :=
    UploadController.getPresignedUrl demo_uuid (Some "documents") body
      initial_world in
  let key_of (grant : UploadService.UploadGrant * World) :=
    UploadService.key (fst grant) in
  key_of first
  ≠ key_of (UploadController.getPresignedUrl demo_uuid (Some "documents") body
              (snd first)) ∧
  key_of first
  ≠ key_of (UploadController.getGuestPresignedUrl demo_uuid (Some "documents")
              body (snd first)) ∧
  key_of (UploadController.getGuestPresignedUrl demo_uuid (Some "documents")
            body initial_world)
  ≠ key_of (UploadController.getGuestPresignedUrl demo_uuid (Some "documents")
              body (snd first)).
Proof.
  refine (upload_keys_differ demo_uuid (Some "documents")
            (UploadController.mkBody "r.jpg" "image/jpeg")
            (UploadController.mkBody "r.jpg" "image/jpeg")
            initial_world
            (snd (UploadController.getPresignedUrl demo_uuid (Some "documents")
                    (UploadController.mkBody "r.jpg" "image/jpeg") initial_world))
            eq_refl _).
  vm_compute. discriminate.
Defined.

(** ** Histories: what the calls keep *)

(** The world after a submission. *)
Lemma perform_create (uuid_gen : nat → string)
    (params : JobsService.CreateJobParams) (w : World) :
  perform uuid_gen w (CallCreateJob params) =
  let job := fst (JobsService.createJob uuid_gen params w) in
  mkWorld (<[uuid_gen (uuidCalls w) := job]> (jobRepository w))
          (sqsQueue w ++ [message_of job])%list
          (S (uuidCalls w)).
Proof. reflexivity. Qed.


(** An update rewrites a row without touching what its message is made of. *)
Lemma message_of_apply_patch (p : JobPatch) (job : Job) :
  message_of (apply_patch p job) = message_of job.
Proof. reflexivity. Qed.

Lemma messages_have_jobs_perform (uuid_gen : nat → string) (w : World) (c : Call) :
  Inj (=) (=) uuid_gen → ids_generated uuid_gen w →
  messages_have_jobs w → messages_have_jobs (perform uuid_gen w c).
Proof.
  intros Hinj Hgen [Hnodup Hrows].
  destruct c as [params|jobId requested extra|fileName contentType].
  - destruct (next_uuid_fresh uuid_gen w Hinj Hgen) as [_ Hfresh].
    assert (Hold : ∀ m, m ∈ sqsQueue w → msg_jobId m ≠ uuid_gen (uuidCalls w)).
    { intros m (job & Hjob & _)%Hrows Heq. rewrite Heq in Hjob. congruence. }
    rewrite perform_create. cbn zeta. split; cbn [jobRepository sqsQueue].
    + rewrite fmap_app. apply NoDup_app. split; [exact Hnodup|]. split.
      * intros x (m & -> & Hm)%list_elem_of_fmap Hx.
        apply list_elem_of_singleton in Hx. exact (Hold m Hm Hx).
      * apply NoDup_singleton.
    + intros m [Hm| ->%list_elem_of_singleton]%elem_of_app.
      * destruct (Hrows m Hm) as (job & Hjob & Hmsg).
        exists job. rewrite lookup_insert_ne by (apply not_eq_sym, Hold, Hm).
        split; assumption.
      * eexists. split; [apply lookup_insert_eq | reflexivity].
  - split; [exact Hnodup|].
    cbn [perform JobsService.updateJobStatus jobRepository sqsQueue].
    intros m Hm. destruct (Hrows m Hm) as (job & Hjob & Hmsg).
    unfold repo_update. rewrite lookup_alter. case_decide as Hk.
    + subst jobId. rewrite Hjob. eexists. split; [reflexivity|].
      rewrite message_of_apply_patch. exact Hmsg.
    + exists job. split; [exact Hjob | exact Hmsg].
  - split; [exact Hnodup | exact Hrows].
Qed.

(** X7.  Let [uuid()] never return a value twice.  In every world the calls
    reach from the empty one, no two messages in the queue name the same job,
    and each message is the message of the job stored under its [jobId]: the
    job exists and has the message's input key and document type. *)
Theorem every_message_has_its_job (uuid_gen : nat → string) (calls : list Call) :
  Inj (=) (=) uuid_gen →
  messages_have_jobs (run uuid_gen calls initial_world).
Proof.
  intros Hinj.
  assert (Hany : ∀ w, ids_generated uuid_gen w → messages_have_jobs w →
                      messages_have_jobs (run uuid_gen calls w)).
  { induction calls as [|c calls IH]; intros w Hgen Hw; [exact Hw|].
    apply IH; [apply ids_generated_perform, Hgen|].
    apply messages_have_jobs_perform; assumption. }
  apply Hany; [apply ids_generated_initial|].
  split; [apply NoDup_nil_2|]. intros m Hm. inversion Hm.
Qed.

(** Two submissions and an update of the first job. *)
Lemma every_message_has_its_job_witness :
  messages_have_jobs
    (run demo_uuid
       [CallCreateJob (JobsService.mkCreateJobParams None "uploads/a.pdf" EXPENSE);
        CallCreateJob (JobsService.mkCreateJobParams (Some "alice") "uploads/b.png" HR);
        CallUpdateJobStatus "0" "PROCESSING" None]
       initial_world).
Proof. exact (every_message_has_its_job demo_uuid _ demo_uuid_inj). Defined.





Lemma creation_columns_perform (uuid_gen : nat → string) (w : World) (c : Call)
    (k : string) (job : Job) :
  Inj (=) (=) uuid_gen → ids_generated uuid_gen w →
  jobRepository w !! k = Some job →
  ∃ job', jobRepository (perform uuid_gen w c) !! k = Some job' ∧
          creation_columns job' = creation_columns job.
Proof.
  intros Hinj Hgen Hjob.
  destruct c as [params|jobId requested extra|fileName contentType].
  - destruct (next_uuid_fresh uuid_gen w Hinj Hgen) as [_ Hfresh].
    rewrite perform_create. cbn zeta. cbn [jobRepository].
    exists job. rewrite lookup_insert_ne by congruence. split; [exact Hjob | reflexivity].
  - cbn [perform JobsService.updateJobStatus jobRepository].
    unfold repo_update. rewrite lookup_alter. case_decide as Hk.
    + subst jobId. rewrite Hjob. eexists. split; reflexivity.
    + exists job. split; [exact Hjob | reflexivity].
  - exists job. split; [exact Hjob | reflexivity].
Qed.

(** X9.  Let [uuid()] never return a value twice.  A job stored in a world
    the calls reach from the empty one is still stored after any further
    calls, with the same id, owner, input key, input kind and document type:
    no later submission takes its id, and no update touches those columns. *)
Theorem stored_job_keeps_creation_columns (uuid_gen : nat → string)
    (before after : list Call) (k : string) (job : Job) :
  Inj (=) (=) uuid_gen →
  jobRepository (run uuid_gen before initial_world) !! k = Some job →
  ∃ job',
    jobRepository (run uuid_gen after (run uuid_gen before initial_world)) !! k
    = Some job' ∧
    creation_columns job' = creation_columns job.
Proof.
  intros Hinj.
  assert (Hgen : ids_generated uuid_gen (run uuid_gen before initial_world))
    by apply ids_generated_run, ids_generated_initial.
  revert Hgen. generalize (run uuid_gen before initial_world) as w.
  revert job. induction after as [|c after IH]; intros job w Hgen Hjob.
  - exists job. split; [exact Hjob | reflexivity].
  - destruct (creation_columns_perform uuid_gen w c k job Hinj Hgen Hjob)
      as (mid & Hmid & Hcols).
    destruct (IH mid (perform uuid_gen w c)
                (ids_generated_perform _ _ _ Hgen) Hmid) as (job' & Hjob' & Hcols').
    exists job'. split; [exact Hjob' | congruence].
Qed.

(** Alice's job after a guest submission and two updates addressed to it. *)
Lemma stored_job_keeps_creation_columns_witness :
  let before :=
    [CallCreateJob (JobsService.mkCreateJobParams (Some "alice") "uploads/a.pdf" HR)] in
  let after :=
    [CallCreateJob (JobsService.mkCreateJobParams None "uploads/b.png" EXPENSE);
     CallUpdateJobStatus "0" "PROCESSING" None;
     CallUpdateJobStatus "0" "FAILED"
       (Some (JobsService.mkExtra None (Some "unreadable")))] in
  ∃ job',
    jobRepository (run demo_uuid after (run demo_uuid before initial_world)) !! "0"
    = Some job' ∧
    creation_columns job' = creation_columns (fst alice_submission_hr).
Proof.
  cbn zeta.
  refine (stored_job_keeps_creation_columns demo_uuid _ _ "0"
            (fst alice_submission_hr) demo_uuid_inj _).
  vm_compute. reflexivity.
Defined.

(** ** Status updates *)

Lemma updateJobStatus_row (jobId requested : string)
    (extra : option JobsService.Extra) (w : World) (job : Job) :
  jobRepository w !! jobId = Some job →
  jobRepository (JobsService.updateJobStatus jobId requested extra w) !! jobId
  = Some (apply_patch (JobsService.spread_status requested extra) job).
Proof.
  intros Hjob. unfold JobsService.updateJobStatus, repo_update.
  cbn [jobRepository]. rewrite lookup_alter_eq, Hjob. reflexivity.
Qed.

Lemma updateJobStatus_other_row (jobId requested : string)
    (extra : option JobsService.Extra) (w : World) (k : string) :
  jobId ≠ k →
  jobRepository (JobsService.updateJobStatus jobId requested extra w) !! k
  = jobRepository w !! k.
Proof.
  intros Hk. unfold JobsService.updateJobStatus, repo_update.
  cbn [jobRepository]. apply lookup_alter_ne, Hk.
Qed.

(** X12.  Whatever status updates are applied, to whatever ids, a stored job
    stays stored, keeps its id, owner, input key, input kind and document
    type, and a column among [outputFileKey] and [errorMessage] that holds a
    value still holds one: an update can overwrite a column but never set
    it back to NULL. *)
Theorem updates_never_clear_columns (updates : list StatusUpdate) (w : World)
    (jobId : string) (job : Job) :
  jobRepository w !! jobId = Some job →
  ∃ job',
    jobRepository (apply_updates updates w) !! jobId = Some job' ∧
    creation_columns job' = creation_columns job ∧
    (is_Some (outputFileKey job) → is_Some (outputFileKey job')) ∧
    (is_Some (errorMessage job) → is_Some (errorMessage job')).
Proof.
  revert w job. induction updates as [|u updates IH]; intros w job Hjob.
  - exists job. split; [exact Hjob|]. repeat split; auto.
  - unfold apply_updates in *. cbn [foldl].
    destruct (decide (upd_jobId u = jobId)) as [Hu|Hu].
    + pose proof (updateJobStatus_row jobId (upd_status u) (upd_extra u) w job
                    Hjob) as Hrow.
      rewrite Hu.
      destruct (IH _ _ Hrow) as (job' & Hjob' & Hcols & Hout & Herr).
      exists job'. split; [exact Hjob'|]. split; [exact Hcols|].
      split; intros Hset.
      * apply Hout. cbn. destruct (upd_extra u) as [[[out|] err]|]; cbn; eauto.
      * apply Herr. cbn. destruct (upd_extra u) as [[out [err|]]|]; cbn; eauto.
    + apply IH. rewrite updateJobStatus_other_row by exact Hu. exact Hjob.
Qed.

(** A FAILED job with a message, then marked PROCESSING and COMPLETED. *)
Lemma updates_never_clear_columns_witness :
  let failed :=
    JobsService.updateJobStatus "0" "FAILED"
      (Some (JobsService.mkExtra None (Some "unreadable"))) (snd guest_submission) in
  let job :=
    mkJob "0" "guest" "uploads/abc-invoice.pdf" "pdf" EXPENSE "FAILED"
          None (Some "unreadable") in
  let updates :=
    [mkStatusUpdate "0" "PROCESSING" None;
     mkStatusUpdate "0" "COMPLETED"
       (Some (JobsService.mkExtra (Some "outputs/0-result.xlsx") None))] in
  ∃ job',
    jobRepository (apply_updates updates failed) !! "0" = Some job' ∧
    creation_columns job' = creation_columns job ∧
    (is_Some (outputFileKey job) → is_Some (outputFileKey job')) ∧
    (is_Some (errorMessage job) → is_Some (errorMessage job')).
Proof.
  cbn zeta.
  refine (updates_never_clear_columns _ _ "0"
            (mkJob "0" "guest" "uploads/abc-invoice.pdf" "pdf" EXPENSE "FAILED"
                   None (Some "unreadable")) _).
  vm_compute. reflexivity.
Defined.

Lemma apply_patch_twice (p : JobPatch) (job : Job) :
  apply_patch p (apply_patch p job) = apply_patch p job.
Proof.
  destruct p as [requested [out|] [err|]]; reflexivity.
Qed.

Lemma updateJobStatus_twice (jobId requested : string)
    (extra : option JobsService.Extra) (w : World) :
  JobsService.updateJobStatus jobId requested extra
    (JobsService.updateJobStatus jobId requested extra w)
  = JobsService.updateJobStatus jobId requested extra w.
Proof.
  destruct w as [repo queue calls].
  unfold JobsService.updateJobStatus, repo_update.
  cbn [jobRepository sqsQueue uuidCalls]. f_equal.
  apply map_eq. intros k. destruct (decide (jobId = k)) as [->|Hk].
  - rewrite !lookup_alter_eq. destruct (repo !! k) as [job|]; [|reflexivity].
    cbn. rewrite apply_patch_twice. reflexivity.
  - rewrite !lookup_alter_ne by exact Hk. reflexivity.
Qed.

(** X13.  Applying the same status update, with a non-empty id, a second
    time leaves every row with the columns the first application left it
    (the timestamps, which the model does not carry, apart), and the queue
    as it was: a message delivered twice rewrites the row to the same
    values. *)
Theorem updateJobStatus_idempotent (jobId requested : string)
    (extra : option JobsService.Extra) (w : World) (k : string) :
  jobId ≠ "" →
  let once := JobsService.updateJobStatus jobId requested extra w in
  let twice := JobsService.updateJobStatus jobId requested extra once in
  stored_columns <$> jobRepository twice !! k
  = stored_columns <$> jobRepository once !! k ∧
  sqsQueue twice = sqsQueue once.
Proof.
  intros _. cbn zeta. rewrite updateJobStatus_twice. split; reflexivity.
Qed.

(** The guest job marked FAILED twice with the same message. *)
Lemma updateJobStatus_idempotent_witness :
  let once :=
    JobsService.updateJobStatus "0" "FAILED"
      (Some (JobsService.mkExtra None (Some "unreadable"))) (snd guest_submission) in
  let twice :=
    JobsService.updateJobStatus "0" "FAILED"
      (Some (JobsService.mkExtra None (Some "unreadable"))) once in
  stored_columns <$> jobRepository twice !! "0"
  = stored_columns <$> jobRepository once !! "0" ∧
  sqsQueue twice = sqsQueue once.
Proof.
  cbn zeta.
  refine (updateJobStatus_idempotent "0" "FAILED"
            (Some (JobsService.mkExtra None (Some "unreadable")))
            (snd guest_submission) "0" _).
  discriminate.
Defined.

Lemma updates_swap (u1 u2 : StatusUpdate) (w : World) :
  upd_jobId u1 ≠ upd_jobId u2 →
  apply_updates [u1; u2] w = apply_updates [u2; u1] w.
Proof.
  intros Hne. destruct w as [repo queue calls].
  unfold apply_updates, JobsService.updateJobStatus, repo_update.
  cbn [foldl jobRepository sqsQueue uuidCalls]. f_equal.
  apply map_eq. intros k.
  destruct (decide (upd_jobId u1 = k)) as [H1|H1];
    destruct (decide (upd_jobId u2 = k)) as [H2|H2]; [congruence| | |].
  - rewrite <- H1.
    rewrite lookup_alter_ne, !lookup_alter_eq, lookup_alter_ne by congruence.
    reflexivity.
  - rewrite <- H2.
    rewrite lookup_alter_eq, !lookup_alter_ne, lookup_alter_eq by congruence.
    reflexivity.
  - rewrite !lookup_alter_ne by assumption. reflexivity.
Qed.

(** X14.  Two status updates with non-empty, different ids can be applied
    in either order: every row ends with the same columns (the timestamps,
    which the model does not carry, apart), and the queue is untouched. *)
Theorem updateJobStatus_commutes (u1 u2 : StatusUpdate) (w : World) (k : string) :
  upd_jobId u1 ≠ "" →
  upd_jobId u2 ≠ "" →
  upd_jobId u1 ≠ upd_jobId u2 →
  stored_columns <$> jobRepository (apply_updates [u1; u2] w) !! k
  = stored_columns <$> jobRepository (apply_updates [u2; u1] w) !! k ∧
  sqsQueue (apply_updates [u1; u2] w) = sqsQueue (apply_updates [u2; u1] w).
Proof.
  intros _ _ Hne. rewrite (updates_swap u1 u2 w Hne). split; reflexivity.
Qed.

(** Two jobs, one marked PROCESSING and the other FAILED. *)
Lemma updateJobStatus_commutes_witness :
  let w :=
    run demo_uuid
      [CallCreateJob (JobsService.mkCreateJobParams None "uploads/a.pdf" EXPENSE);
       CallCreateJob (JobsService.mkCreateJobParams None "uploads/b.png" HR)]
      initial_world in
  let u1 := mkStatusUpdate "0" "PROCESSING" None in
  let u2 :=
    mkStatusUpdate "1" "FAILED"
      (Some (JobsService.mkExtra None (Some "unreadable"))) in
  stored_columns <$> jobRepository (apply_updates [u1; u2] w) !! "1"
  = stored_columns <$> jobRepository (apply_updates [u2; u1] w) !! "1" ∧
  sqsQueue (apply_updates [u1; u2] w) = sqsQueue (apply_updates [u2; u1] w).
Proof.
  cbn zeta.
  refine (updateJobStatus_commutes (mkStatusUpdate "0" "PROCESSING" None)
            (mkStatusUpdate "1" "FAILED"
               (Some (JobsService.mkExtra None (Some "unreadable")))) _ "1" _ _ _);
    discriminate.
Defined.

(** ** The read routes *)

(** X15.  The download routes never test for COMPLETED: for a job the
    requester sees whose status is none of PROCESSING, PENDING and FAILED,
    whatever string it is, either route answers the 200 object that says
    COMPLETED, with a URL signed for the job's [outputFileKey], when the job
    has a non-empty [outputFileKey] and a bucket is configured; and the
    request is rejected inside the presigner when the job has no
    [outputFileKey] or no bucket is configured. *)
Theorem download_defaults_to_completed (S3_BUCKET : option string) (w : World)
    (jobId : string) (job : Job) (outcome : Settled Response) :
  download_settles S3_BUCKET w jobId job outcome →
  status job ≠ "PROCESSING" → status job ≠ "PENDING" → status job ≠ "FAILED" →
  (∀ bucket key,
     S3_BUCKET = Some bucket → bucket ≠ "" →
     outputFileKey job = Some key → key ≠ "" →
     outcome
     = Resolved
         [("statusCode", JNum 200); ("status", JStr "COMPLETED");
          ("downloadUrl",
           JUrl (getSignedUrl (GetObjectCommand (Some bucket) (Some key)) 300))]) ∧
  (outputFileKey job = None ∨ S3_BUCKET = None → outcome = Rejected).
Proof.
  intros Hsettles Hprocessing%String.eqb_neq Hpending%String.eqb_neq
    Hfailed%String.eqb_neq.
  destruct Hsettles as [user seen Hsees|seen Hsees]; settle_handler Hsees;
    rewrite Hprocessing, Hpending, Hfailed; cbn; split.
  all: try (intros bucket key -> Hbucket -> Hkey;
            rewrite (proj2 (truthy_Some bucket) Hbucket),
                    (proj2 (truthy_Some key) Hkey); reflexivity).
  all: intros [-> | ->]; [rewrite andb_false_r | ]; reflexivity.
Qed.

(** A job marked "CANCELLED" with an output key, downloaded on the guest
    route. *)
Lemma download_defaults_to_completed_witness :
  let w :=
    JobsService.updateJobStatus "0" "CANCELLED"
      (Some (JobsService.mkExtra (Some "outputs/0-result.xlsx") None))
      (snd guest_submission) in
  let job :=
    mkJob "0" "guest" "uploads/abc-invoice.pdf" "pdf" EXPENSE "CANCELLED"
          (Some "outputs/0-result.xlsx") None in
  let outcome := Async.downloadGuestJobResult (Some "documents") "0" w in
  (∀ bucket key,
     Some "documents" = Some bucket → bucket ≠ "" →
     outputFileKey job = Some key → key ≠ "" →
     outcome
     = Resolved
         [("statusCode", JNum 200); ("status", JStr "COMPLETED");
          ("downloadUrl",
           JUrl (getSignedUrl (GetObjectCommand (Some bucket) (Some key)) 300))]) ∧
  (outputFileKey job = None ∨ Some "documents" = None → outcome = Rejected).
Proof.
  cbn zeta.
  refine (download_defaults_to_completed (Some "documents") _ "0"
            (mkJob "0" "guest" "uploads/abc-invoice.pdf" "pdf" EXPENSE
                   "CANCELLED" (Some "outputs/0-result.xlsx") None) _ _ _ _ _);
    [|discriminate|discriminate|discriminate].
  apply (settles_guest (Some "documents")
           (JobsService.updateJobStatus "0" "CANCELLED"
              (Some (JobsService.mkExtra (Some "outputs/0-result.xlsx") None))
              (snd guest_submission))
           "0"). vm_compute. reflexivity.
Defined.

(** X16.  For a job the requester sees, either status route reports the
    stored status string as it is, and the answer has the properties
    [jobId], [status] and, exactly when the status is FAILED, [error]; no
    other column of the job is in the answer. *)
Theorem status_read_properties (w : World) (jobId : string) (job : Job)
    (answer : Response) :
  status_read w jobId job answer →
  field "status" answer = Some (JStr (status job)) ∧
  property_names answer
  = if bool_decide (status job = "FAILED")
    then ["jobId"; "status"; "error"] else ["jobId"; "status"].
Proof.
  intros [user seen Hsees|seen Hsees]; run_handler Hsees;
    destruct (String.eqb_spec (status seen) "FAILED") as [Hs|Hs];
    first [rewrite bool_decide_eq_true_2 by exact Hs
          |rewrite bool_decide_eq_false_2 by exact Hs];
    split; reflexivity.
Qed.

(** The guest status read of a job that is still PENDING. *)
Lemma status_read_properties_witness :
  let answer := JobsController.getGuestJobStatus "0" (snd guest_submission) in
  field "status" answer = Some (JStr "PENDING") ∧
  property_names answer = ["jobId"; "status"].
Proof.
  cbn zeta.
  refine (status_read_properties (snd guest_submission) "0"
            (fst guest_submission) _ _).
  apply status_guest. vm_compute. reflexivity.
Defined.

(** X17.  What an authenticated read route answers is either the not-found
    object or, word for word, what the guest route answers for the same id:
    the guard and the owner filter never show a requester more than the
    guest route shows anyone. *)
Theorem authenticated_read_is_guest_read_or_not_found
    (S3_BUCKET : option string) (user : AuthUser) (jobId : string) (w : World) :
  (JobsController.getJobStatus user jobId w = not_found_body ∨
   JobsController.getJobStatus user jobId w
   = JobsController.getGuestJobStatus jobId w) ∧
  (JobsController.downloadJobResult S3_BUCKET user jobId w = not_found_body ∨
   JobsController.downloadJobResult S3_BUCKET user jobId w
   = JobsController.downloadGuestJobResult S3_BUCKET jobId w).
Proof.
  destruct (JobsService.getJobById jobId (Some (auth_userId user)) w)
    as [job|] eqn:Hsees.
  - assert (Hguest : JobsService.getJobById jobId None w = Some job).
    { apply getJobById_Some in Hsees as [Hrow _]. apply getJobById_Some.
      split; [exact Hrow | left; reflexivity]. }
    split; right;
      unfold JobsController.getJobStatus, JobsController.getGuestJobStatus,
        JobsController.downloadJobResult, JobsController.downloadGuestJobResult;
      cbn zeta; rewrite Hsees, Hguest; reflexivity.
  - split; left;
      unfold JobsController.getJobStatus, JobsController.downloadJobResult;
      cbn zeta; rewrite Hsees; reflexivity.
Qed.

(** X18.  A job submitted on the authenticated route by a principal with a
    non-empty id is stored with that id as its owner; the owner's status read
    answers with the job, and the status and download reads of any other
    principal with a non-empty id are answered not-found. *)
Theorem authenticated_job_is_its_owners (uuid_gen : nat → string)
    (S3_BUCKET : option string) (owner reader : AuthUser) (body : CreateJobDto)
    (w : World) :
  auth_userId owner ≠ "" →
  auth_userId reader ≠ "" →
  auth_userId reader ≠ auth_userId owner →
  let w' := snd (JobsController.createJob uuid_gen owner body w) in
  let jobId := uuid_gen (uuidCalls w) in
  userId <$> jobRepository w' !! jobId = Some (auth_userId owner) ∧
  JobsController.getJobStatus owner jobId w'
  = [("jobId", JStr jobId); ("status", JStr "PENDING")] ∧
  JobsController.getJobStatus reader jobId w' = not_found_body ∧
  JobsController.downloadJobResult S3_BUCKET reader jobId w' = not_found_body.
Proof.
  intros Howner Hreader Hne. cbn zeta.
  unfold JobsController.createJob. rewrite createJob_unfold. cbn zeta.
  cbn [snd id JobsService.param_userId JobsService.param_inputFileKey
       JobsService.param_documentType].
  rewrite (or_else_truthy (Some (auth_userId owner)) "guest" _ eq_refl Howner).
  set (job := mkJob _ _ _ _ _ _ _ _).
  set (w' := mkWorld _ _ _).
  assert (Hrow : jobRepository w' !! uuid_gen (uuidCalls w) = Some job)
    by apply lookup_insert_eq.
  assert (Hown : JobsService.getJobById (uuid_gen (uuidCalls w))
                   (Some (auth_userId owner)) w' = Some job).
  { apply getJobById_Some. split; [exact Hrow | right; reflexivity]. }
  assert (Hother : JobsService.getJobById (uuid_gen (uuidCalls w))
                     (Some (auth_userId reader)) w' = None).
  { destruct (JobsService.getJobById _ (Some (auth_userId reader)) w')
      as [seen|] eqn:Hsees; [|reflexivity].
    apply getJobById_Some in Hsees as [Hseen [Hfalsy|Hsame]].
    - apply truthy_Some in Hreader. congruence.
    - rewrite Hrow in Hseen. injection Hseen as <-. injection Hsame as Hsame.
      exfalso. apply Hne. exact Hsame. }
  split; [rewrite Hrow; reflexivity|].
  unfold JobsController.getJobStatus, JobsController.downloadJobResult.
  cbn zeta. rewrite Hown, Hother. repeat split.
Qed.

(** Alice submits; Bob asks for the job. *)
Lemma authenticated_job_is_its_owners_witness :
  let alice := mkAuthUser "alice" in
  let bob := mkAuthUser "bob" in
  let w' :=
    snd (JobsController.createJob demo_uuid alice
           (mkCreateJobDto "uploads/a.pdf" HR) initial_world) in
  userId <$> jobRepository w' !! "0" = Some "alice" ∧
  JobsController.getJobStatus alice "0" w'
  = [("jobId", JStr "0"); ("status", JStr "PENDING")] ∧
  JobsController.getJobStatus bob "0" w' = not_found_body ∧
  JobsController.downloadJobResult (Some "documents") bob "0" w' = not_found_body.
Proof.
  cbn zeta.
  refine (authenticated_job_is_its_owners demo_uuid (Some "documents")
            (mkAuthUser "alice") (mkAuthUser "bob")
            (mkCreateJobDto "uploads/a.pdf" HR) initial_world _ _ _);
    discriminate.
Defined.

(** ** The submission body *)

(** X19.  The constraints of [CreateJobDto] accept exactly the bodies whose
    [inputFileKey] is a non-empty string and whose [documentType] is the
    string "EXPENSE" or the string "HR": any other value of either property,
    a missing one included, is a violation. *)
Theorem CreateJobDto_accepts_exactly (raw : RawBody) :
  CreateJobDto_violations raw = [] ↔
  ∃ key d,
    key ≠ "" ∧
    raw = mkRawBody (JsonString key) (JsonString (DocumentType_to_string d)).
Proof.
  split.
  - intros (key & d & Hraw & Hkey & _)%ValidationPipe_valid. eauto.
  - intros (key & d & Hkey & ->). destruct key; [congruence|].
    destruct d; reflexivity.
Qed.

(** ** Registration and login *)

(** X20.  [login] answers a token exactly for a stored user whose hash
    [bcrypt.compare] accepts, and the token signs that user's id and email;
    every other login, whether the email is unknown or the password wrong,
    throws the same [UnauthorizedException] with the same message. *)
Theorem login_outcomes {Users : Type} `{AuthDeps Users}
    (address password : string) (users : Users) :
  (∀ user,
     findByEmail address users = Some user →
     bcrypt_compare password (user_passwordHash user) = true →
     AuthService.login address password users
     = AuthService.AccessToken
         (jwt_sign (mkJwtPayload (user_id user) (user_email user)))) ∧
  ((¬ ∃ user, findByEmail address users = Some user ∧
              bcrypt_compare password (user_passwordHash user) = true) ↔
   AuthService.login address password users
   = AuthService.UnauthorizedException "Invalid credentials").
Proof.
  unfold AuthService.login, AuthService.generateToken. split.
  - intros user -> ->. reflexivity.
  - destruct (findByEmail address users) as [user|].
    + destruct (bcrypt_compare password (user_passwordHash user)) eqn:Hmatch.
      * split; [|discriminate]. intros Hno. exfalso. apply Hno. eauto.
      * split; [reflexivity|]. intros _ (found & [= <-] & Hyes). congruence.
    + split; [reflexivity|]. intros _ (found & Hfound & _). discriminate.
Qed.

(** X21.  When the users service finds by its email the user it has just
    created, with the hash it was given, and [bcrypt.compare] accepts a
    password against the hash [bcrypt.hash] made of it, a [login] with the
    email and password of a [register] does not throw: it answers the token
    [generateToken] makes for the created user, signing that user's id and
    email. *)
Theorem register_then_login {Users : Type} `{AuthDeps Users}
    (uuid_gen : nat → string) (address password : string) (w : World)
    (users : Users) :
  let created :=
    createUser (mkUser (uuid_gen (uuidCalls w)) address (bcrypt_hash password 10))
               users in
  findByEmail address (snd created) = Some (fst created) →
  user_passwordHash (fst created) = bcrypt_hash password 10 →
  bcrypt_compare password (bcrypt_hash password 10) = true →
  let registered := AuthService.register uuid_gen address password w users in
  AuthService.login address password (snd registered)
  = AuthService.generateToken (user_id (fst created)) (user_email (fst created)) ∧
  AuthService.login address password (snd registered)
  ≠ AuthService.UnauthorizedException "Invalid credentials".
Proof.
  cbn zeta. intros Hfound Hhash Hmatch.
  unfold AuthService.register, AuthService.login, uuid.
  cbn zeta.
  destruct (createUser _ users) as [user users1] eqn:Hcreated.
  cbn [fst snd] in *. rewrite Hfound, Hhash, Hmatch.
  split; [reflexivity | discriminate].
Qed.

(** Alice registers with the stand-ins and logs in. *)
Lemma register_then_login_witness :
  let registered :=
    AuthService.register (H := in_memory_deps) demo_uuid
      "alice@example.org" "s3cret" initial_world ∅ in
  AuthService.login (H := in_memory_deps) "alice@example.org" "s3cret"
    (snd registered)
  = AuthService.generateToken (H := in_memory_deps) "0" "alice@example.org" ∧
  AuthService.login (H := in_memory_deps) "alice@example.org" "s3cret"
    (snd registered)
  ≠ AuthService.UnauthorizedException "Invalid credentials".
Proof.
  cbn zeta.
  refine (register_then_login (H := in_memory_deps) demo_uuid
            "alice@example.org" "s3cret" initial_world ∅ _ _ _).
  - apply (lookup_insert_eq (M := gmap string)).
  - reflexivity.
  - reflexivity.
Defined.
